(** * Heading hierarchy: the render-time tracker, the tree audit and the
      command-line audit script

    Shallow embedding of
    - [src/components/ui/Heading.tsx]: [HeadingProvider]'s [registerHeading]
      and [validateHeadingHierarchy];
    - [src/scripts/audit-heading-hierarchy.js]: [HEADING_PATTERNS],
      [extractHeadings], [validateFileHierarchy], [processFile],
      [scanDirectory] and [main].

    Heading levels are JavaScript numbers that only ever hold small
    integers; they are embedded as [Z].  Strings are [string]s of
    characters.  Mutable closure variables ([lastLevel], [errors],
    [h1Count], the React state cell [currentLevel]), the script's
    module-level summary and the console are threaded explicitly. *)

From Stdlib Require Import ZArith List Bool Lia Ascii String DecimalString.
From Stdlib Require Import DecimalPos DecimalZ Sorted Permutation.
Import ListNotations.

Local Open Scope string_scope.
Local Open Scope Z_scope.
Local Set Warnings "-register-all".

(** ** JavaScript primitives used by both files *)

Module Js.

(** Template-literal interpolation of an integral number: [`${n}`]. *)
Definition toString (n : Z) : string :=
  NilZero.string_of_int (Z.to_int n).

(** [String.prototype.toUpperCase], on the ASCII letters. *)
Definition upperChar (c : ascii) : ascii :=
  let n := nat_of_ascii c in
  if (andb (Nat.leb 97 n) (Nat.leb n 122)) then ascii_of_nat (n - 32) else c.

Fixpoint toUpperCase (s : string) : string :=
  match s with
  | EmptyString => EmptyString
  | String c s' => String (upperChar c) (toUpperCase s')
  end.

(** The character class [[1-6]], with the number the digit reads as. *)
Definition digit16 (c : ascii) : option Z :=
  let code := nat_of_ascii c in
  if andb (Nat.leb 49 code) (Nat.leb code 54)
  then Some (Z.of_nat (code - 48)) else None.

(** [s.includes(t)]. *)
Fixpoint includes (s t : string) : bool :=
  match s with
  | EmptyString => match t with EmptyString => true | _ => false end
  | String _ s' => orb (prefix t s) (includes s' t)
  end.

End Js.

(** ** [src/components/ui/Heading.tsx] *)

Module Heading.

(** *** [HeadingProvider] and [registerHeading]

    The provider owns one state cell, [currentLevel], initialised from
    [initialLevel] (default 0).  [registerHeading] is an arrow function
    without [return]: a caller receives [undefined].  What it does is
    observable through the console and through the state cell. *)

Record Scope := mkScope { currentLevel : Z }.

Definition HeadingProvider (initialLevel : Z) : Scope :=
  mkScope initialLevel.

Definition defaultInitialLevel : Z := 0.

(** Outcome of one call: the value handed back to the caller read as an
    optional report ([None] is JavaScript's [undefined]), the lines
    passed to [console.warn], and the scope after [setCurrentLevel]. *)
Record Outcome := mkOutcome {
  returned : option string;
  warnings : list string;
  scope : Scope
}.

Definition jumpWarning (currentLevel level : Z) : string :=
  "Heading hierarchy violation: Jumping from H" ++ Js.toString currentLevel
    ++ " to H" ++ Js.toString level ++ ". "
    ++ "Consider using H" ++ Js.toString (currentLevel + 1) ++ " instead.".

Definition registerHeading (NODE_ENV : string) (s : Scope) (level : Z)
  : Outcome :=
  let warned :=
    if String.eqb NODE_ENV "development" then
      if level >? currentLevel s + 1
      then [jumpWarning (currentLevel s) level]
      else []
    else [] in
  mkOutcome None warned (mkScope level).

(** Calls made one per render: each call goes through the callback of
    the render that follows the call before it, so it is compared with
    the level that call set; the console accumulates in call order.
    Calls made by the effects of one and the same commit are [commit],
    below. *)
Fixpoint registerAll (NODE_ENV : string) (s : Scope) (levels : list Z)
  : list string * Scope :=
  match levels with
  | [] => ([], s)
  | level :: rest =>
      let o := registerHeading NODE_ENV s level in
      let '(ws, s') := registerAll NODE_ENV (scope o) rest in
      ((warnings o ++ ws)%list, s')
  end.

(** The effects of one commit.  [registerHeading] is a [useCallback]
    closure over the [currentLevel] of one render, and every [Heading]
    whose effect runs in a commit calls the closure of that same render:
    all the calls are compared with the one level [s] the render had.
    [setCurrentLevel] queues the new level; the scope of the next render
    holds the level queued last. *)
Definition commit (NODE_ENV : string) (s : Scope) (levels : list Z)
  : list string * Scope :=
  (flat_map (fun level => warnings (registerHeading NODE_ENV s level)) levels,
   fold_left (fun _ level => scope (registerHeading NODE_ENV s level))
             levels s).

(** What a consumer of [HeadingContextType] can invoke on the scope:
    the interface has the field [level], which is read, and the
    function [registerHeading]. *)
Inductive ContextCall :=
| CallRegisterHeading (level : Z).

Definition invoke (NODE_ENV : string) (c : ContextCall) (s : Scope)
  : Scope :=
  match c with
  | CallRegisterHeading level => scope (registerHeading NODE_ENV s level)
  end.

(** *** [Heading]: the level and the tag it renders

    [autoLevel ? Math.min(contextLevel + 1, 6) : level] and
    [`h${actualLevel}`]. *)

Definition actualLevel (autoLevel : bool) (contextLevel level : Z) : Z :=
  if autoLevel then Z.min (contextLevel + 1) 6 else level.

Definition HeadingTag (actualLevel : Z) : string :=
  "h" ++ Js.toString actualLevel.

(** *** [validateHeadingHierarchy]

    A [ReactNode] is an element, a piece of text, a number, one of the
    values that render nothing, or an array of nodes.  An element's
    [type] is either a string (an intrinsic tag such as ["h2"] or
    ["div"]) or something else (a function component, a fragment).
    Of the props only [children] is read. *)

Inductive ElementType :=
| Intrinsic (tag : string)
| Component (name : string).

Inductive ReactNode :=
| Element (type : ElementType) (children : ReactNode)
| Text (s : string)
| Num (n : Z)
| Null
| Boolean (b : bool)
| Nodes (items : list ReactNode).

(** [/^h[1-6]$/.test(tag)] *)
Definition testHeadingTag (tag : string) : bool :=
  match tag with
  | String "h"%char (String d EmptyString) =>
      match Js.digit16 d with Some _ => true | None => false end
  | _ => false
  end.

(** [parseInt(tag.charAt(1))]; [None] stands for [NaN]. *)
Definition parseIntCharAt1 (tag : string) : option Z :=
  match tag with
  | String _ (String d _) =>
      let n := nat_of_ascii d in
      if andb (Nat.leb 48 n) (Nat.leb n 57)
      then Some (Z.of_nat (n - 48)) else None
  | _ => None
  end.

Definition foundMessage (tag : string) (lastLevel : Z) : string :=
  "Heading hierarchy violation: Found " ++ Js.toUpperCase tag
    ++ " after H" ++ Js.toString lastLevel ++ ". "
    ++ "Consider using H" ++ Js.toString (lastLevel + 1) ++ " instead.".

(** The two closure variables of [validateHeadingHierarchy]. *)
Record Walk := mkWalk { lastLevel : Z; errors : list string }.

(** The heading branch of [traverse], for an element whose [type] is
    the string [tag]. *)
Definition visitTag (tag : string) (w : Walk) : Walk :=
  if testHeadingTag tag then
    match parseIntCharAt1 tag with
    | Some level =>
        let errors' :=
          if level >? lastLevel w + 1
          then (errors w ++ [foundMessage tag (lastLevel w)])%list
          else errors w in
        mkWalk level errors'
    | None => w (* the pattern only admits a digit at index 1 *)
    end
  else w.

(** JavaScript truthiness of [props.children]. *)
Definition truthy (node : ReactNode) : bool :=
  match node with
  | Text s => negb (String.eqb s "")
  | Num n => negb (n =? 0)%Z
  | Null => false
  | Boolean b => b
  | Element _ _ | Nodes _ => true
  end.

(** [walk false] is [traverse]; [walk true] is
    [React.Children.forEach(_, traverse)], which flattens arrays and
    hands every other child to [traverse].  Called directly on an array,
    [traverse] does nothing, since an array is not a valid element. *)
Fixpoint walk (asChildren : bool) (node : ReactNode) (w : Walk) : Walk :=
  match node with
  | Element type children =>
      let w1 :=
        match type with
        | Intrinsic tag => visitTag tag w
        | Component _ => w
        end in
      if truthy children then walk true children w1 else w1
  | Nodes items =>
      if asChildren then
        (fix each (items : list ReactNode) (w : Walk) : Walk :=
           match items with
           | [] => w
           | child :: rest => each rest (walk true child w)
           end) items w
      else w
  | Text _ | Num _ | Null | Boolean _ => w
  end.

Definition traverse : ReactNode -> Walk -> Walk := walk false.

Definition validateHeadingHierarchy (element : ReactNode) : list string :=
  errors (traverse element (mkWalk 0 [])).

(** The hook [useHeadingValidation(enabled)]'s [validate]. *)
Definition useHeadingValidation (enabled : bool) (element : ReactNode)
  : list string :=
  if negb enabled then [] else validateHeadingHierarchy element.

End Heading.

(** ** [src/scripts/audit-heading-hierarchy.js] *)

Module Audit.

(** *** [HEADING_PATTERNS]

    The four regular expressions share one shape,
    [<] letter [([1-6])[^>]*] then [>] or [/>], and all carry the flags
    [g] and [i].  A pattern is recorded by the letter written in its
    source and by whether it ends in [\/>]. *)

Record HeadingPattern := mkPattern { letter : ascii; selfClosed : bool }.

Definition jsx := mkPattern "h" false.
Definition component := mkPattern "H" false.
Definition selfClosing := mkPattern "h" true.
Definition componentSelfClosing := mkPattern "H" true.

(** [Object.entries(HEADING_PATTERNS)]: keys in insertion order. *)
Definition HEADING_PATTERNS : list (string * HeadingPattern) :=
  [ ("jsx", jsx);
    ("component", component);
    ("selfClosing", selfClosing);
    ("componentSelfClosing", componentSelfClosing) ].

(** Flag [i]: two characters match when their canonical (upper-case)
    forms coincide. *)
Definition sameLetter (a b : ascii) : bool :=
  Ascii.eqb (Js.upperChar a) (Js.upperChar b).

Definition isGt (c : ascii) : bool := Ascii.eqb c ">".

(** [[^>]*] followed by [>]: the text before the first [>], if there
    is one. *)
Fixpoint untilGt (s : string) : option string :=
  match s with
  | EmptyString => None
  | String c s' =>
      if isGt c then Some EmptyString
      else match untilGt s' with
           | Some body => Some (String c body)
           | None => None
           end
  end.

Fixpoint endsWithSlash (s : string) : bool :=
  match s with
  | EmptyString => false
  | String c EmptyString => Ascii.eqb c "/"
  | String _ s' => endsWithSlash s'
  end.

(** A match anchored at the head of [s]: [parseInt(match[1])] and
    [match[0]].  Since [[^>]*] cannot cross a [>], the match ends at
    the first [>] after the digit; the self-closed form requires the
    character before that [>] to be a [/] lying after the digit. *)
Definition matchHere (p : HeadingPattern) (s : string)
  : option (Z * string) :=
  match s with
  | String "<"%char (String l (String d tail)) =>
      if sameLetter l (letter p) then
        match Js.digit16 d, untilGt tail with
        | Some level, Some body =>
            if implb (selfClosed p) (endsWithSlash body)
            then Some (level,
                       String "<" (String l (String d (body ++ ">"))))
            else None
        | _, _ => None
        end
      else None
  | _ => None
  end.

Definition isNewline (c : ascii) : bool := Ascii.eqb c "010".

(** The loop [while ((match = pattern.exec(content)) !== null)]: the
    leftmost match at or after [lastIndex], then [lastIndex] moves to
    the end of the match.  [skip] counts the characters still covered
    by the previous match; [line] is
    [content.substring(0, index).split('\n').length] at the current
    index.  Each result is (level, matched text, line number). *)
Fixpoint execAll (p : HeadingPattern) (skip : nat) (line : Z)
    (content : string) : list (Z * string * Z) :=
  match content with
  | EmptyString => []
  | String c rest =>
      let line' := if isNewline c then line + 1 else line in
      match skip with
      | S k => execAll p k line' rest
      | O =>
          match matchHere p content with
          | Some (level, m) =>
              (level, m, line)
                :: execAll p (String.length m - 1) line' rest
          | None => execAll p 0 line' rest
          end
      end
  end.

(** *** [extractHeadings] *)

Record HeadingEvent := mkEvent {
  level : Z;
  type : string;
  matched : string;
  lineNumber : Z;
  filePath : string
}.

(** The events pushed while one entry of [HEADING_PATTERNS] is
    processed. *)
Definition eventsOf (content filePath : string)
    (entry : string * HeadingPattern) : list HeadingEvent :=
  let '(key, pattern) := entry in
  map (fun '(level, m, line) =>
         mkEvent level
                 (if Js.includes key "component"
                  then "component" else "html")
                 m line filePath)
      (execAll pattern 0 1 content).

(** [headings.sort((a, b) => a.lineNumber - b.lineNumber)]: the sort is
    stable, so its result is the stable insertion sort on the line
    number. *)
Fixpoint insertByLine (x : HeadingEvent) (l : list HeadingEvent)
  : list HeadingEvent :=
  match l with
  | [] => [x]
  | y :: l' =>
      if lineNumber x <=? lineNumber y then x :: y :: l'
      else y :: insertByLine x l'
  end.

Definition sortByLine (l : list HeadingEvent) : list HeadingEvent :=
  fold_right insertByLine [] l.

Definition extractHeadings (content filePath : string)
  : list HeadingEvent :=
  sortByLine (flat_map (eventsOf content filePath) HEADING_PATTERNS).

(** *** [validateFileHierarchy] *)

Inductive Violation :=
| hierarchy_skip (message filePath : string)
                 (lineNumber level previousLevel : Z)
| multiple_h1 (message filePath : string) (count : Z).

(** [auditResults.summary], the module-level record the script
    updates. *)
Record Summary := mkSummary {
  totalFiles : Z;
  filesWithHeadings : Z;
  totalHeadings : Z;
  violationsFound : Z;
  h1Count : Z;
  multipleH1Files : list string
}.

Definition emptySummary : Summary := mkSummary 0 0 0 0 0 [].

(** The three locals of [validateFileHierarchy]. *)
Record FileWalk := mkFileWalk {
  lastLevel : Z;
  fileH1Count : Z;
  violations : list Violation
}.

Definition skipMessage (level lastLevel : Z) : string :=
  "Heading hierarchy violation: H" ++ Js.toString level
    ++ " follows H" ++ Js.toString lastLevel
    ++ " (skipped H" ++ Js.toString (lastLevel + 1) ++ ")".

Definition multipleMessage (h1Count : Z) : string :=
  "Multiple H1 headings found (" ++ Js.toString h1Count ++ " total)".

(** Body of [headings.forEach]. *)
Definition visitHeading (path : string) (w : FileWalk)
    (heading : HeadingEvent) : FileWalk :=
  let h1 := if level heading =? 1
            then fileH1Count w + 1 else fileH1Count w in
  let vs :=
    if level heading >? lastLevel w + 1
    then (violations w
            ++ [hierarchy_skip (skipMessage (level heading) (lastLevel w))
                               path (lineNumber heading)
                               (level heading) (lastLevel w)])%list
    else violations w in
  mkFileWalk (level heading) h1 vs.

Definition walkFile (headings : list HeadingEvent) (path : string)
  : FileWalk :=
  fold_left (visitHeading path) headings (mkFileWalk 0 0 []).

Definition validateFileHierarchy (headings : list HeadingEvent)
    (path : string) (summary : Summary) : list Violation * Summary :=
  let w := walkFile headings path in
  let '(vs, files) :=
    if fileH1Count w >? 1
    then ((violations w
             ++ [multiple_h1 (multipleMessage (fileH1Count w)) path
                             (fileH1Count w)])%list,
          (multipleH1Files summary ++ [path])%list)
    else (violations w, multipleH1Files summary) in
  (vs,
   mkSummary (totalFiles summary) (filesWithHeadings summary)
             (totalHeadings summary) (violationsFound summary)
             (h1Count summary + fileH1Count w) files).

(** *** [processFile], from the text [fs.readFileSync] returned

    The record of the file pushed onto [auditResults.files], the
    violations pushed onto [auditResults.violations] and the summary. *)
Definition processFile (content path : string) (summary : Summary)
  : list HeadingEvent * list Violation * Summary :=
  let headings := extractHeadings content path in
  if (0 <? Z.of_nat (List.length headings)) then
    let counted :=
      mkSummary (totalFiles summary) (filesWithHeadings summary + 1)
                (totalHeadings summary + Z.of_nat (List.length headings))
                (violationsFound summary) (h1Count summary)
                (multipleH1Files summary) in
    let '(vs, s1) := validateFileHierarchy headings path counted in
    (headings, vs,
     mkSummary (totalFiles s1) (filesWithHeadings s1) (totalHeadings s1)
               (violationsFound s1 + Z.of_nat (List.length vs))
               (h1Count s1) (multipleH1Files s1))
  else (headings, [], summary).

End Audit.

(** ** Vocabulary of the properties

    The heading sequence of a tree in document order, the pages the tests
    build from a list of levels, and the two notions of a legal sequence:
    relative to the heading just before, and relative to the deepest
    heading so far. *)

Module Outline.
Import Heading.

Definition tagLevels (tag : string) : list Z :=
  if testHeadingTag tag then
    match parseIntCharAt1 tag with Some l => [l] | None => [] end
  else [].

(** Levels of the intrinsic heading elements a traversal meets, in
    document order; [asChildren] as for [walk]. *)
Fixpoint headingLevels (asChildren : bool) (node : ReactNode) : list Z :=
  match node with
  | Element type children =>
      (match type with
       | Intrinsic tag => tagLevels tag
       | Component _ => []
       end
       ++ (if truthy children then headingLevels true children else []))%list
  | Nodes items =>
      if asChildren then flat_map (headingLevels true) items else []
  | Text _ | Num _ | Null | Boolean _ => []
  end.

Definition headingSequence : ReactNode -> list Z := headingLevels false.

(** [<div><h_l1>..</h_l1> ... <h_ln>..</h_ln></div>] *)
Definition headingElement (level : Z) : ReactNode :=
  Element (Intrinsic (HeadingTag level)) (Text "content").

Definition page (levels : list Z) : ReactNode :=
  Element (Intrinsic "div") (Nodes (map headingElement levels)).

(** Every level is at most one deeper than the level just before it
    ([prior] before the first). *)
Fixpoint stepwise (prior : Z) (levels : list Z) : bool :=
  match levels with
  | [] => true
  | l :: rest => andb (l <=? prior + 1) (stepwise l rest)
  end.

(** Every level is at most one deeper than the deepest level before it
    ([deepest] before the first). *)
Fixpoint byWatermark (deepest : Z) (levels : list Z) : bool :=
  match levels with
  | [] => true
  | l :: rest =>
      andb (l <=? deepest + 1) (byWatermark (Z.max deepest l) rest)
  end.

(** Number of positions at which a level is more than one deeper than
    the level just before it. *)
Fixpoint skips (prior : Z) (levels : list Z) : nat :=
  match levels with
  | [] => 0%nat
  | l :: rest =>
      ((if l >? prior + 1 then 1 else 0) + skips l rest)%nat
  end.

(** The messages a traversal pushes for a sequence of heading levels,
    starting after a heading of level [prior]. *)
Fixpoint scan (prior : Z) (levels : list Z) : list string :=
  match levels with
  | [] => []
  | l :: rest =>
      ((if l >? prior + 1
        then [foundMessage (HeadingTag l) prior] else [])
       ++ scan l rest)%list
  end.

Definition inRange (levels : list Z) : Prop :=
  Forall (fun l => 1 <= l <= 6) levels.

(** The heading events of a file whose headings have the given levels,
    one per line. *)
Fixpoint eventsFrom (line : Z) (path : string) (levels : list Z)
  : list Audit.HeadingEvent :=
  match levels with
  | [] => []
  | l :: rest =>
      Audit.mkEvent l "html" ("<" ++ HeadingTag l ++ ">") line path
        :: eventsFrom (line + 1) path rest
  end.

Definition isSkip (v : Audit.Violation) : bool :=
  match v with Audit.hierarchy_skip _ _ _ _ _ => true | _ => false end.

Definition isMultipleH1 (v : Audit.Violation) : bool :=
  match v with Audit.multiple_h1 _ _ _ => true | _ => false end.

Definition countLevel1 (headings : list Audit.HeadingEvent) : nat :=
  List.length (filter (fun h => Audit.level h =? 1) headings).

(** Occurrences of a heading tag in a source text, as the script's
    first pattern finds them, and those among them written
    self-closed, as its third pattern finds them; the [1] variants
    count the occurrences of level 1. *)
Definition tags (content : string) : list (Z * string * Z) :=
  Audit.execAll Audit.jsx 0 1 content.

Definition selfClosedTags (content : string) : list (Z * string * Z) :=
  Audit.execAll Audit.selfClosing 0 1 content.

Definition ofLevel1 (ms : list (Z * string * Z)) : nat :=
  List.length (filter (fun m => fst (fst m) =? 1) ms).

(** Number of line breaks in a text. *)
Fixpoint newlines (s : string) : Z :=
  match s with
  | EmptyString => 0
  | String c rest => (if Audit.isNewline c then 1 else 0) + newlines rest
  end.

(** Events in the order of their line numbers. *)
Definition byLine (a b : Audit.HeadingEvent) : Prop :=
  Audit.lineNumber a <= Audit.lineNumber b.

(** The text of a match: [<], the letter, the digit of its level, a
    body without [>], and [>]. *)
Definition tagText (lvl : Z) (m : string) : Prop :=
  exists l d body,
    m = String "<" (String l (String d (body ++ ">")))
    /\ Audit.sameLetter l "h" = true
    /\ Js.digit16 d = Some lvl
    /\ Audit.untilGt body = None.

(** The patterns of [HEADING_PATTERNS] are written with [h] or [H]. *)
Definition headingPattern (p : Audit.HeadingPattern) : Prop :=
  (Audit.letter p = "h" \/ Audit.letter p = "H")%char.

(** Where a result of the exec loop comes from: the text before it, the
    match, the text after it. *)
Definition occursAt (content : string) (line : Z) (r : Z * string * Z)
  : Prop :=
  let '(lvl, m, ln) := r in
  1 <= lvl <= 6 /\ tagText lvl m
  /\ exists before after,
       content = before ++ m ++ after /\ ln = line + newlines before.

(** A skip record of file [path] that the heading list [all] backs. *)
Definition recordOk (path : string) (all : list Audit.HeadingEvent)
    (v : Audit.Violation) : Prop :=
  match v with
  | Audit.hierarchy_skip msg file line lvl prev =>
      file = path
      /\ lvl > prev + 1
      /\ msg = Audit.skipMessage lvl prev
      /\ (exists h, In h all /\ Audit.level h = lvl
                    /\ Audit.lineNumber h = line)
      /\ (prev = 0 \/ exists h, In h all /\ Audit.level h = prev)
  | Audit.multiple_h1 _ _ _ => False
  end.

(** No match of the self-closed pattern starts at any of the first [k]
    positions of [s]. *)
Fixpoint noSelfClosedWithin (k : nat) (s : string) : Prop :=
  match k with
  | O => True
  | S k' =>
      Audit.matchHere Audit.selfClosing s = None
      /\ match s with
         | EmptyString => True
         | String _ rest => noSelfClosedWithin k' rest
         end
  end.

End Outline.

(** ** The script's walk over the source tree

    [scanDirectory], [processFile] with its [try]/[catch] and [main],
    over a file system given as a tree of entries.  What the script
    writes with [console.log], the report of [generateReport] included,
    is not recorded; [console.error] is. *)

Module Cli.

(** What [fs.readFileSync(filePath, 'utf8')] does: the text, or an
    exception with its [message]. *)
Inductive ReadResult :=
| Content (text : string)
| Throws (message : string).

(** A directory entry, in the order [fs.readdirSync] lists them, of a
    file system on which [fs.statSync] and [fs.readdirSync] succeed;
    [Fs] below has the names on which they throw. *)
Inductive Entry :=
| FileEntry (name : string) (read : ReadResult)
| DirEntry (name : string) (entries : list Entry).

(** Reading a directory as a file. *)
Definition EISDIR : string :=
  "EISDIR: illegal operation on a directory, read".

(** One element of [auditResults.files]. *)
Record FileRecord := mkFileRecord {
  path : string;
  headings : list Audit.HeadingEvent;
  fileViolations : list Audit.Violation
}.

Record AuditResults := mkResults {
  files : list FileRecord;
  violations : list Audit.Violation;
  summary : Audit.Summary
}.

(** The module-level [auditResults] together with the lines written by
    [console.error]. *)
Record Run := mkRun { auditResults : AuditResults; stderr : list string }.

Definition initialRun : Run :=
  mkRun (mkResults [] [] Audit.emptySummary) [].

(** The line of [console.error] in the [catch]: the two arguments,
    separated by a space. *)
Definition errorLine (filePath message : string) : string :=
  "Error processing file " ++ filePath ++ ":" ++ " " ++ message.

(** [processFile(filePath)], given what reading the file does. *)
Definition processFile (filePath : string) (read : ReadResult) (r : Run)
  : Run :=
  match read with
  | Content content =>
      let '(hs, vs, s) :=
        Audit.processFile content filePath (summary (auditResults r)) in
      mkRun (mkResults
               (files (auditResults r) ++ [mkFileRecord filePath hs vs])%list
               (violations (auditResults r) ++ vs)%list
               s)
            (stderr r)
  | Throws message =>
      mkRun (auditResults r) (stderr r ++ [errorLine filePath message])%list
  end.

(** [s.endsWith(t)] and [s.startsWith(t)]. *)
Fixpoint endsWith (s t : string) : bool :=
  orb (String.eqb s t)
      (match s with
       | EmptyString => false
       | String _ s' => endsWith s' t
       end).

Definition startsWith (s t : string) : bool := prefix t s.

(** [file.match(/\.(tsx|jsx)$/)] *)
Definition isReactFile (file : string) : bool :=
  orb (endsWith file ".tsx") (endsWith file ".jsx").

(** [stat.isDirectory() && !file.startsWith('.') && file !== 'node_modules'],
    for an entry that is a directory. *)
Definition entersDirectory (file : string) : bool :=
  andb (negb (startsWith file ".")) (negb (String.eqb file "node_modules")).

(** [path.join(dir, file)] for a directory path and an entry name. *)
Definition join (dir file : string) : string := dir ++ "/" ++ file.

(** [auditResults.summary.totalFiles++] *)
Definition countFile (r : Run) : Run :=
  let a := auditResults r in
  let s := summary a in
  mkRun (mkResults (files a) (violations a)
           (Audit.mkSummary (Audit.totalFiles s + 1)
              (Audit.filesWithHeadings s) (Audit.totalHeadings s)
              (Audit.violationsFound s) (Audit.h1Count s)
              (Audit.multipleH1Files s)))
        (stderr r).

(** The body of [files.forEach] in [scanDirectory(dir)].  An entry that
    is a directory but is not entered falls through to the [else if]
    like a file. *)
Fixpoint scanEntry (dir : string) (e : Entry) (r : Run) : Run :=
  match e with
  | FileEntry file read =>
      if isReactFile file
      then countFile (processFile (join dir file) read r)
      else r
  | DirEntry file entries =>
      if entersDirectory file then
        fold_left (fun r e => scanEntry (join dir file) e r) entries r
      else if isReactFile file
      then countFile (processFile (join dir file) (Throws EISDIR) r)
      else r
  end.

Definition scanDirectory (dir : string) (entries : list Entry) (r : Run)
  : Run :=
  fold_left (fun r e => scanEntry dir e r) entries r.

(** [main]: each of the two roots is scanned if it exists ([None] when
    [fs.existsSync] is false); the result is the final state and the
    code handed to [process.exit]. *)
Definition exitCode (r : Run) : Z :=
  if Audit.violationsFound (summary (auditResults r)) >? 0 then 1 else 0.

Definition main (COMPONENTS_DIR APP_DIR : string)
    (components app : option (list Entry)) : Run * Z :=
  let r1 :=
    match components with
    | Some entries => scanDirectory COMPONENTS_DIR entries initialRun
    | None => initialRun
    end in
  let r2 :=
    match app with
    | Some entries => scanDirectory APP_DIR entries r1
    | None => r1
    end in
  (r2, exitCode r2).

(** A file the scan of [entries] in [dir] reaches: its path and what
    reading it gives. *)
Inductive Reaches : string -> list Entry -> string -> ReadResult -> Prop :=
| reaches_file dir entries file read :
    In (FileEntry file read) entries ->
    isReactFile file = true ->
    Reaches dir entries (join dir file) read
| reaches_below dir entries file children p read :
    In (DirEntry file children) entries ->
    entersDirectory file = true ->
    Reaches (join dir file) children p read ->
    Reaches dir entries p read.

End Cli.

(** ** Vocabulary of the scan

    The reads a scan performs, in order; the record a readable file
    leaves; and how the counters of the summary relate to the lists of
    [auditResults]. *)

Module Survey.
Import Cli.

(** The paths [processFile] is called with while [dir] is scanned, with
    what reading each gives, in call order. *)
Fixpoint reads (dir : string) (e : Entry) : list (string * ReadResult) :=
  match e with
  | FileEntry file read =>
      if isReactFile file then [(join dir file, read)] else []
  | DirEntry file entries =>
      if entersDirectory file
      then flat_map (reads (join dir file)) entries
      else if isReactFile file then [(join dir file, Throws EISDIR)] else []
  end.

(** [processFile] followed by the count, for each read in turn. *)
Definition processAll (l : list (string * ReadResult)) (r : Run) : Run :=
  fold_left (fun r pr => countFile (processFile (fst pr) (snd pr) r)) l r.

(** The element of [auditResults.files] a readable file leaves. *)
Definition recordOf (filePath content : string) : FileRecord :=
  mkFileRecord filePath
    (Audit.extractHeadings content filePath)
    (snd (fst (Audit.processFile content filePath Audit.emptySummary))).

(** What one read adds to [auditResults.files]. *)
Definition recordsOf (pr : string * ReadResult) : list FileRecord :=
  match snd pr with
  | Content content => [recordOf (fst pr) content]
  | Throws _ => []
  end.

Definition hasHeadings (f : FileRecord) : bool :=
  match headings f with [] => false | _ :: _ => true end.

(** The summary counts what the lists hold. *)
Definition consistent (r : Run) : Prop :=
  let a := auditResults r in
  let s := summary a in
  violations a = flat_map fileViolations (files a)
  /\ Audit.violationsFound s = Z.of_nat (List.length (violations a))
  /\ Audit.totalHeadings s
     = Z.of_nat (List.length (flat_map headings (files a)))
  /\ Audit.filesWithHeadings s
     = Z.of_nat (List.length (filter hasHeadings (files a)))
  /\ Audit.h1Count s
     = Z.of_nat (Outline.countLevel1 (flat_map headings (files a)))
  /\ Audit.totalFiles s
     = Z.of_nat (List.length (files a) + List.length (stderr r)).

(** Entries of a root that may be absent. *)
Definition rootEntries (root : option (list Entry)) : list Entry :=
  match root with Some entries => entries | None => [] end.

(** An entry with everything removed that lies inside a directory the
    scan does not enter. *)
Fixpoint prune (e : Entry) : Entry :=
  match e with
  | FileEntry file read => FileEntry file read
  | DirEntry file entries =>
      DirEntry file (if entersDirectory file then map prune entries else [])
  end.

End Survey.

(** ** The [Heading] component and its wrappers

    What [Heading] returns, as far as the audit can see it, and the
    level its effect hands to [registerHeading].  The props [id] and
    [className] play no part in either. *)

Module Component.
Import Heading.

Definition Heading (level : Z) (children : ReactNode) (autoLevel : bool)
    (contextLevel : Z) : ReactNode :=
  Element (Intrinsic (HeadingTag (actualLevel autoLevel contextLevel level)))
          children.

(** The call made by [Heading]'s effect on the scope it reads its
    context from. *)
Definition HeadingEffect (NODE_ENV : string) (level : Z) (autoLevel : bool)
    (s : Scope) : Outcome :=
  registerHeading NODE_ENV s (actualLevel autoLevel (currentLevel s) level).

(** [H1] to [H6]: [<Heading level={n} {...props} />]. *)
Definition H1 children autoLevel ctx := Heading 1 children autoLevel ctx.
Definition H2 children autoLevel ctx := Heading 2 children autoLevel ctx.
Definition H3 children autoLevel ctx := Heading 3 children autoLevel ctx.
Definition H4 children autoLevel ctx := Heading 4 children autoLevel ctx.
Definition H5 children autoLevel ctx := Heading 5 children autoLevel ctx.
Definition H6 children autoLevel ctx := Heading 6 children autoLevel ctx.

End Component.

(** ** [validateHeadingHierarchy] on any value

    [props.children] is only cast to [ReactNode]: at run time a child can
    be any JavaScript value.  [JsNode] adds to the nodes of [ReactNode]
    the two kinds of value that [React.Children.forEach] treats
    differently: a plain object, on which it throws, and a function,
    which it passes over.  The console is threaded through the call, and
    a call ends with a list of messages or with an exception. *)

Module Runtime.
Import Heading.

Inductive JsNode :=
| JElement (type : ElementType) (children : JsNode)
| JText (s : string)
| JNum (n : Z)
| JNull
| JBoolean (b : bool)
| JNodes (items : list JsNode)
| JObject (keys : list string)
| JFunction.

(** The error of [React.Children.forEach] for an object that is neither
    an element nor iterable, with the keys it reports. *)
Inductive Exception :=
| InvalidChild (keys : list string).

(** A computation: from the console before, the value or the exception,
    and the console after. *)
Definition Effect (A : Type) : Type :=
  list string -> (A + Exception) * list string.

Definition ret {A : Type} (a : A) : Effect A :=
  fun console => (inl a, console).

Definition throw {A : Type} (e : Exception) : Effect A :=
  fun console => (inr e, console).

Definition bind {A B : Type} (m : Effect A) (k : A -> Effect B) : Effect B :=
  fun console =>
    match m console with
    | (inl a, console') => k a console'
    | (inr e, console') => (inr e, console')
    end.

(** JavaScript truthiness of [props.children]. *)
Definition truthy (node : JsNode) : bool :=
  match node with
  | JText s => negb (String.eqb s "")
  | JNum n => negb (n =? 0)%Z
  | JNull => false
  | JBoolean b => b
  | JElement _ _ | JNodes _ | JObject _ | JFunction => true
  end.

(** [walk false] is [traverse], [walk true] is
    [React.Children.forEach(_, traverse)]: arrays are flattened, an
    element is handed to [traverse], a plain object makes it throw, any
    other value has no effect.  Called directly, [traverse] does
    something for a valid element only. *)
Fixpoint walk (asChildren : bool) (node : JsNode) (w : Walk) : Effect Walk :=
  match node with
  | JElement type children =>
      let w1 :=
        match type with
        | Intrinsic tag => visitTag tag w
        | Component _ => w
        end in
      if truthy children then walk true children w1 else ret w1
  | JNodes items =>
      if asChildren then
        (fix each (items : list JsNode) (w : Walk) : Effect Walk :=
           match items with
           | [] => ret w
           | child :: rest => bind (walk true child w) (each rest)
           end) items w
      else ret w
  | JObject keys => if asChildren then throw (InvalidChild keys) else ret w
  | JText _ | JNum _ | JNull | JBoolean _ | JFunction => ret w
  end.

Definition traverse : JsNode -> Walk -> Effect Walk := walk false.

Definition validateHeadingHierarchy (element : JsNode)
  : Effect (list string) :=
  bind (traverse element (mkWalk 0 [])) (fun w => ret (errors w)).






End Runtime.

(** ** The scan when the file system refuses

    [scanDirectory] calls [fs.readdirSync] and [fs.statSync] outside any
    [try]: an exception of either leaves [main] and ends the process
    with status 1, before the report and before [process.exit].  An
    [Item] is a name of a listing together with what the two calls do on
    it: a file, a directory that can be listed, a directory on which
    [fs.readdirSync] throws, and a name on which [fs.statSync] throws
    (a symbolic link without target, say). *)

Module Fs.
Import Cli.

Inductive Item :=
| FileItem (name : string) (read : ReadResult)
| DirItem (name : string) (items : list Item)
| LockedDirItem (name : string) (message : string)
| BrokenItem (name : string) (message : string).

(** How a scan ends: it returns, or an exception with its [message]
    leaves it; either way with the state reached by then. *)
Inductive Ended :=
| Finished (r : Run)
| Uncaught (message : string) (r : Run).

Definition runOf (e : Ended) : Run :=
  match e with Finished r | Uncaught _ r => r end.

Definition andThen (e : Ended) (k : Run -> Ended) : Ended :=
  match e with
  | Finished r => k r
  | Uncaught message r => Uncaught message r
  end.

(** The body of [files.forEach] in [scanDirectory(dir)]. *)
Fixpoint scanItem (dir : string) (item : Item) (r : Run) : Ended :=
  match item with
  | BrokenItem file message => Uncaught message r
  | FileItem file read =>
      if isReactFile file
      then Finished (countFile (processFile (join dir file) read r))
      else Finished r
  | DirItem file items =>
      if entersDirectory file then
        fold_left (fun e item => andThen e (scanItem (join dir file) item))
                  items (Finished r)
      else if isReactFile file
      then Finished (countFile (processFile (join dir file) (Throws EISDIR) r))
      else Finished r
  | LockedDirItem file message =>
      if entersDirectory file then Uncaught message r
      else if isReactFile file
      then Finished (countFile (processFile (join dir file) (Throws EISDIR) r))
      else Finished r
  end.

Definition scanItems (dir : string) (items : list Item) (r : Run) : Ended :=
  fold_left (fun e item => andThen e (scanItem dir item)) items (Finished r).

(** One of the two roots of [main]: [fs.existsSync] is false, or the
    root is listed, or [fs.readdirSync] throws on it. *)
Inductive Root :=
| Absent
| Listing (items : list Item)
| Unlistable (message : string).

(** [if (fs.existsSync(dir)) { scanDirectory(dir); }] *)
Definition scanRoot (dir : string) (root : Root) (r : Run) : Ended :=
  match root with
  | Absent => Finished r
  | Listing items => scanItems dir items r
  | Unlistable message => Uncaught message r
  end.

(** [main], with the status the process ends with: the argument of
    [process.exit], or 1 after an uncaught exception. *)
Definition main (COMPONENTS_DIR APP_DIR : string) (components app : Root)
  : Ended * Z :=
  let ended :=
    andThen (scanRoot COMPONENTS_DIR components initialRun)
            (scanRoot APP_DIR app) in
  (ended,
   match ended with
   | Finished r => exitCode r
   | Uncaught _ _ => 1
   end).

(** The scan of the item meets a name on which [fs.statSync] throws, or
    enters a directory on which [fs.readdirSync] throws. *)
Fixpoint fails (item : Item) : bool :=
  match item with
  | BrokenItem _ _ => true
  | FileItem _ _ => false
  | DirItem file items => andb (entersDirectory file) (existsb fails items)
  | LockedDirItem file _ => entersDirectory file
  end.

Definition rootFails (root : Root) : bool :=
  match root with
  | Absent => false
  | Listing items => existsb fails items
  | Unlistable _ => true
  end.

(** A file the scan of [items] in [dir] reaches when nothing throws on
    the way: its path and what reading it gives. *)
Inductive Reaches : string -> list Item -> string -> ReadResult -> Prop :=
| reaches_file dir items file read :
    In (FileItem file read) items ->
    isReactFile file = true ->
    Reaches dir items (join dir file) read
| reaches_below dir items file children p read :
    In (DirItem file children) items ->
    entersDirectory file = true ->
    Reaches (join dir file) children p read ->
    Reaches dir items p read.

Definition rootItems (root : Root) : list Item :=
  match root with Listing items => items | Absent | Unlistable _ => [] end.

(** The items as entries of a file system on which the two calls
    succeed; a name without status has no counterpart. *)
Fixpoint entriesOf (item : Item) : list Entry :=
  match item with
  | FileItem file read => [FileEntry file read]
  | DirItem file items => [DirEntry file (flat_map entriesOf items)]
  | LockedDirItem file _ => [DirEntry file []]
  | BrokenItem _ _ => []
  end.

End Fs.

(** * Properties *)

(** ** The render-time tracker *)

Module Tracker.
Import Heading Outline.

Lemma register_scope env s level :
  scope (registerHeading env s level) = mkScope level.
Proof. reflexivity. Qed.

Lemma register_returned env s level :
  returned (registerHeading env s level) = None.
Proof. reflexivity. Qed.

Lemma register_development s level :
  warnings (registerHeading "development" s level)
  = if level >? currentLevel s + 1
    then [jumpWarning (currentLevel s) level] else [].
Proof. reflexivity. Qed.

Lemma register_silent env s level :
  String.eqb env "development" = false ->
  warnings (registerHeading env s level) = [].
Proof. intros H. unfold registerHeading. now rewrite H. Qed.

Lemma registerAll_cons env s level rest :
  registerAll env s (level :: rest)
  = ((warnings (registerHeading env s level)
        ++ fst (registerAll env (mkScope level) rest))%list,
     snd (registerAll env (mkScope level) rest)).
Proof.
  cbn [registerAll]. rewrite register_scope.
  now destruct (registerAll env (mkScope level) rest).
Qed.

Lemma last_cons (x : Z) l : forall d, last (x :: l) d = last l x.
Proof.
  revert x. induction l as [|y l IH]; intros x d.
  - reflexivity.
  - change (last (x :: y :: l) d) with (last (y :: l) d).
    rewrite (IH y d). symmetry. apply (IH y x).
Qed.

Lemma registerAll_scope env levels : forall s,
  snd (registerAll env s levels) = mkScope (last levels (currentLevel s)).
Proof.
  induction levels as [|level rest IH]; intros [cur].
  - reflexivity.
  - rewrite registerAll_cons. cbn [snd]. rewrite IH. cbn [currentLevel].
    now rewrite last_cons.
Qed.

Lemma skips_stepwise levels : forall prior,
  skips prior levels = 0%nat <-> stepwise prior levels = true.
Proof.
  induction levels as [|l rest IH]; intros prior; cbn [skips stepwise].
  - tauto.
  - rewrite andb_true_iff, <- IH, Z.leb_le.
    destruct (Z.gtb_spec l (prior + 1)); lia.
Qed.

(** *** The state cell holds the last registered level *)

(** C1, as the code has it: in the development configuration every
    call applies the rule with the scope's current level as prior
    level; in every configuration the call then stores the registered
    level itself, so after a registration sequence the current level
    is the level registered last (the initial level when nothing was
    registered), whether it is deeper or shallower than before. *)
Theorem register_keeps_last_level env s level levels :
  warnings (registerHeading "development" s level)
  = (if level >? currentLevel s + 1
     then [jumpWarning (currentLevel s) level] else [])
  /\ currentLevel (scope (registerHeading env s level)) = level
  /\ (level < currentLevel s ->
      currentLevel (scope (registerHeading env s level)) < currentLevel s)
  /\ currentLevel (snd (registerAll env s levels))
     = last levels (currentLevel s).
Proof.
  split; [apply register_development|].
  split; [reflexivity|].
  split; [intros Hlower; exact Hlower|].
  now rewrite registerAll_scope.
Qed.

(** C1 fails as stated: on a scope at level 3, registering level 2
    leaves the current level at 2, not at max(3, 2) = 3; and after
    [1; 2; 3; 2] on a fresh scope the current level is 2 although the
    deepest level seen is 3. *)
Lemma register_lower_level_decreases :
  currentLevel (scope (registerHeading "development" (mkScope 3) 2))
    <> Z.max 3 2
  /\ currentLevel (scope (registerHeading "development" (mkScope 3) 2)) < 3
  /\ currentLevel
       (snd (registerAll "development" (HeadingProvider 0) [1; 2; 3; 2]))
     = 2.
Proof. cbn. repeat split; lia. Qed.

(** *** Development and production *)

(** C6, as the code has it: [registerHeading] hands nothing back in any
    configuration, and stores the registered level in every
    configuration; the configurations differ in the warning log alone,
    which in development holds the violation exactly when the rule
    flags one and is empty otherwise. *)
Theorem register_differs_in_log_only env env' s level :
  returned (registerHeading env s level) = None
  /\ returned (registerHeading env s level)
     = returned (registerHeading env' s level)
  /\ scope (registerHeading env s level)
     = scope (registerHeading env' s level)
  /\ warnings (registerHeading env s level)
     = (if String.eqb env "development"
        then warnings (registerHeading "development" s level)
        else [])
  /\ (warnings (registerHeading "development" s level) <> []
      <-> level > currentLevel s + 1).
Proof.
  split; [reflexivity|]. split; [reflexivity|]. split; [reflexivity|].
  split.
  - destruct (String.eqb env "development") eqn:Henv.
    + apply String.eqb_eq in Henv. now subst env.
    + now apply register_silent.
  - rewrite register_development.
    destruct (Z.gtb_spec level (currentLevel s + 1)); split;
      intros; try lia; congruence.
Qed.

(** C6 fails as stated: on a scope at level 1 the rule flags level 4,
    development logs the violation, and in both configurations the
    caller receives nothing. *)
Lemma register_returns_no_report :
  4 > currentLevel (mkScope 1) + 1
  /\ warnings (registerHeading "development" (mkScope 1) 4) <> []
  /\ returned (registerHeading "development" (mkScope 1) 4) = None
  /\ returned (registerHeading "production" (mkScope 1) 4) = None.
Proof.
  split; [cbn; lia|]. split; [discriminate|]. split; reflexivity.
Qed.

(** *** No reset *)

(** C10, as the code has it: the context offers no reset, only
    [registerHeading], and a call overwrites the state cell.  The scope
    a call leaves is the scope of a provider freshly created with the
    registered level as initial level, whatever the scope was before: in
    the render that follows, the next call is evaluated exactly as on
    such a fresh scope.  So registering a scope's own initial level puts
    it back to its initial state, from any state. *)
Theorem register_leaves_fresh_scope env s level initialLevel next :
  scope (registerHeading env s level) = HeadingProvider level
  /\ registerHeading env (scope (registerHeading env s level)) next
     = registerHeading env (HeadingProvider level) next
  /\ invoke env (CallRegisterHeading initialLevel) s
     = HeadingProvider initialLevel
  /\ registerHeading env
       (invoke env (CallRegisterHeading initialLevel) s) next
     = registerHeading env (HeadingProvider initialLevel) next.
Proof.
  assert (Hscope : forall l, scope (registerHeading env s l) = HeadingProvider l)
    by (intros l; apply register_scope).
  split; [apply Hscope|]. split; [now rewrite Hscope|].
  cbn [invoke]. split; [apply Hscope | now rewrite Hscope].
Qed.

(** C10 fails as stated: none of the calls the context offers is a
    reset.  A call of [registerHeading] leaves the level it was given,
    so one and the same call cannot leave both a fresh scope of initial
    level 0 and a fresh scope of initial level 1 in their initial state:
    applied to the two fresh scopes, it makes them indistinguishable to
    the next registration, which they are not. *)
Lemma context_offers_no_reset :
  ~ exists c : ContextCall,
      forall initialLevel level,
        registerHeading "development"
          (invoke "development" c (HeadingProvider initialLevel)) level
        = registerHeading "development" (HeadingProvider initialLevel) level.
Proof.
  intros [[n] H].
  pose proof (H 0 2) as H0. pose proof (H 1 2) as H1.
  cbn [invoke] in H0, H1.
  rewrite register_scope in H0, H1.
  rewrite H0 in H1. discriminate H1.
Qed.

End Tracker.

(** ** The tree audit *)

Module TreeAudit.
Import Heading Outline.

(** Induction on a node, with the hypothesis available for every item
    of an array. *)
Lemma ReactNode_nested_ind (P : ReactNode -> Prop)
  (HElement : forall type children, P children -> P (Element type children))
  (HText : forall s, P (Text s))
  (HNum : forall n, P (Num n))
  (HNull : P Null)
  (HBoolean : forall b, P (Boolean b))
  (HNodes : forall items, Forall P items -> P (Nodes items)) :
  forall node, P node.
Proof.
  fix IH 1. intros [type children | s | n | | b | items].
  - apply HElement, IH.
  - apply HText.
  - apply HNum.
  - apply HNull.
  - apply HBoolean.
  - apply HNodes. induction items as [|item items IHitems].
    + constructor.
    + constructor; [apply IH | exact IHitems].
Qed.

(** The tags the pattern [/^h[1-6]$/] accepts are exactly the six tags
    [Heading] renders, and [parseInt] reads their level back. *)
Lemma heading_tag_inv tag :
  testHeadingTag tag = true ->
  exists l, 1 <= l <= 6 /\ tag = HeadingTag l /\ parseIntCharAt1 tag = Some l.
Proof.
  destruct tag as [|c [|d [|e tag]]]; try discriminate;
    destruct c as [[] [] [] [] [] [] [] []]; try discriminate.
  destruct d as [[] [] [] [] [] [] [] []]; intros Htest;
    vm_compute in Htest; try discriminate Htest; clear Htest;
      first [ exists 1; split; [lia | split; reflexivity]
            | exists 2; split; [lia | split; reflexivity]
            | exists 3; split; [lia | split; reflexivity]
            | exists 4; split; [lia | split; reflexivity]
            | exists 5; split; [lia | split; reflexivity]
            | exists 6; split; [lia | split; reflexivity] ].
Qed.

Lemma heading_tag_test l :
  1 <= l <= 6 ->
  testHeadingTag (HeadingTag l) = true
  /\ parseIntCharAt1 (HeadingTag l) = Some l
  /\ Js.toUpperCase (HeadingTag l) = "H" ++ Js.toString l.
Proof.
  intros H.
  assert (l = 1 \/ l = 2 \/ l = 3 \/ l = 4 \/ l = 5 \/ l = 6) as Hl by lia.
  destruct Hl as [-> | [-> | [-> | [-> | [-> | ->]]]]];
    repeat split; reflexivity.
Qed.

Lemma tagLevels_heading l : 1 <= l <= 6 -> tagLevels (HeadingTag l) = [l].
Proof.
  intros H. unfold tagLevels.
  destruct (heading_tag_test l H) as (-> & -> & _). reflexivity.
Qed.

Lemma scan_app a : forall prior b,
  scan prior (a ++ b) = (scan prior a ++ scan (last a prior) b)%list.
Proof.
  induction a as [|x a IH]; intros prior b.
  - reflexivity.
  - rewrite Tracker.last_cons. cbn [app scan]. rewrite IH.
    now rewrite app_assoc.
Qed.

Lemma last_app (a b : list Z) : forall d,
  last (a ++ b) d = last b (last a d).
Proof.
  induction a as [|x a IH]; intros d.
  - reflexivity.
  - rewrite Tracker.last_cons. cbn [app]. rewrite Tracker.last_cons.
    apply IH.
Qed.

Lemma visitTag_scan tag w :
  visitTag tag w
  = mkWalk (last (tagLevels tag) (lastLevel w))
           (errors w ++ scan (lastLevel w) (tagLevels tag)).
Proof.
  unfold visitTag, tagLevels.
  destruct (testHeadingTag tag) eqn:Htest.
  - destruct (heading_tag_inv tag Htest) as (l & _ & -> & ->).
    cbn [last scan]. rewrite app_nil_r.
    destruct (l >? lastLevel w + 1); [reflexivity|].
    now rewrite app_nil_r.
  - destruct w. cbn. now rewrite app_nil_r.
Qed.

(** The traversal only depends on the heading sequence of the tree. *)
Lemma walk_scan : forall node asChildren w,
  walk asChildren node w
  = mkWalk (last (headingLevels asChildren node) (lastLevel w))
           (errors w ++ scan (lastLevel w) (headingLevels asChildren node)).
Proof.
  induction node as [type children IH | | | | | items IH]
    using ReactNode_nested_ind; intros asChildren w;
    try (destruct w; cbn; now rewrite app_nil_r).
  - cbn [walk headingLevels].
    set (w1 := match type with
               | Intrinsic tag => visitTag tag w
               | Component _ => w
               end).
    set (ls := match type with
               | Intrinsic tag => tagLevels tag
               | Component _ => []
               end).
    assert (Hw1 : w1 = mkWalk (last ls (lastLevel w))
                             (errors w ++ scan (lastLevel w) ls)).
    { subst w1 ls. destruct type as [tag | name].
      - apply visitTag_scan.
      - destruct w. cbn. now rewrite app_nil_r. }
    destruct (truthy children).
    + rewrite IH, Hw1. cbn [lastLevel errors].
      now rewrite last_app, scan_app, app_assoc.
    + rewrite Hw1. now rewrite !app_nil_r.
  - cbn [walk headingLevels]. destruct asChildren.
    + revert w. induction IH as [|item items Hitem _ IHitems]; intros w.
      * destruct w. cbn. now rewrite app_nil_r.
      * cbn [flat_map]. rewrite Hitem, IHitems. cbn [lastLevel errors].
        now rewrite last_app, scan_app, app_assoc.
    + destruct w. cbn. now rewrite app_nil_r.
Qed.

Lemma validate_scan element :
  validateHeadingHierarchy element = scan 0 (headingSequence element).
Proof.
  unfold validateHeadingHierarchy, traverse, headingSequence.
  now rewrite walk_scan.
Qed.

Lemma flat_map_heading levels :
  inRange levels ->
  flat_map (headingLevels true) (map headingElement levels) = levels.
Proof.
  induction 1 as [|l levels Hl _ IH]; [reflexivity|].
  cbn [map flat_map]. rewrite IH.
  unfold headingElement at 1. cbn [headingLevels truthy].
  now rewrite (tagLevels_heading l Hl).
Qed.

Lemma headingSequence_page levels :
  inRange levels -> headingSequence (page levels) = levels.
Proof.
  intros H. unfold headingSequence, page. cbn [headingLevels truthy].
  unfold tagLevels. cbn [testHeadingTag app].
  now apply flat_map_heading.
Qed.

Lemma scan_length levels : forall prior,
  List.length (scan prior levels) = skips prior levels.
Proof.
  induction levels as [|l rest IH]; intros prior; [reflexivity|].
  cbn [scan skips]. rewrite length_app, IH.
  now destruct (l >? prior + 1).
Qed.

(** *** The audit is a function of the heading sequence *)

(** Trees with the same heading sequence give the same list; an
    element whose tag is not one of [h1] to [h6] is passed through like
    any non-heading element. *)
Lemma audit_reads_sequence_only element element' :
  (headingSequence element = [] -> validateHeadingHierarchy element = [])
  /\ (headingSequence element = headingSequence element' ->
      validateHeadingHierarchy element = validateHeadingHierarchy element')
  /\ (forall tag children,
        testHeadingTag tag = false ->
        validateHeadingHierarchy (Element (Intrinsic tag) children)
        = validateHeadingHierarchy (Element (Component tag) children)).
Proof.
  split; [|split].
  - intros H. now rewrite validate_scan, H.
  - intros H. now rewrite !validate_scan, H.
  - intros tag children Htest. rewrite !validate_scan.
    unfold headingSequence. cbn [headingLevels]. unfold tagLevels.
    now rewrite Htest.
Qed.

(** Trees that are not well-formed documents: unknown and out-of-range
    tags, an upper-case tag, arrays inside arrays, empty slots. *)
Example audit_of_malformed_trees :
  validateHeadingHierarchy Null = []
  /\ validateHeadingHierarchy (Nodes [headingElement 1; headingElement 4]) = []
  /\ validateHeadingHierarchy
       (Element (Intrinsic "h7")
          (Nodes [Element (Intrinsic "H3") Null; Element (Intrinsic "h0") Null;
                  Element (Intrinsic "h10") (Text ""); Boolean true;
                  Nodes [Nodes []; Null; Num 0]])) = []
  /\ validateHeadingHierarchy
       (Element (Component "Fragment")
          (Nodes [Nodes [headingElement 1]; Element (Intrinsic "h9")
                    (headingElement 2)])) = [].
Proof. repeat split. Qed.

(** *** The audit on any value *)













End TreeAudit.

(** ** The command-line audit script *)

Module Script.
Import Audit Outline.

(** Under the flag [i] the letter a pattern is written with does not
    matter. *)
Lemma matchHere_letter b s :
  matchHere (mkPattern "H" b) s = matchHere (mkPattern "h" b) s.
Proof.
  (* [sameLetter l "H"] and [sameLetter l "h"] both compare the
     canonical form of [l] with ["H"] *)
  destruct s as [|c0 [|l [|d tail]]]; reflexivity.
Qed.

Lemma execAll_letter b content : forall skip line,
  execAll (mkPattern "H" b) skip line content
  = execAll (mkPattern "h" b) skip line content.
Proof.
  induction content as [|c rest IH]; intros skip line; [reflexivity|].
  cbn [execAll]. destruct skip as [|k]; [|apply IH].
  rewrite matchHere_letter.
  destruct (matchHere (mkPattern "h" b) (String c rest)) as [[lvl m]|];
    now rewrite IH.
Qed.

Lemma eventsOf_length content path key p :
  List.length (eventsOf content path (key, p))
  = List.length (execAll p 0 1 content).
Proof. unfold eventsOf. apply length_map. Qed.

Lemma eventsOf_level1 content path key p :
  countLevel1 (eventsOf content path (key, p))
  = ofLevel1 (execAll p 0 1 content).
Proof.
  unfold countLevel1, ofLevel1, eventsOf.
  induction (execAll p 0 1 content) as [|[[lvl m] ln] ms IH];
    [reflexivity|].
  cbn [map filter level fst]. destruct (lvl =? 1); cbn [List.length];
    now rewrite IH.
Qed.

(** Sorting moves events, it neither adds nor drops any. *)
Lemma insertByLine_filter f x l :
  List.length (filter f (insertByLine x l))
  = List.length (filter f (x :: l)).
Proof.
  induction l as [|y l IH]; [reflexivity|].
  cbn [insertByLine]. destruct (lineNumber x <=? lineNumber y);
    [reflexivity|].
  cbn [filter] in *. destruct (f y), (f x); cbn [List.length] in *; lia.
Qed.

Lemma sortByLine_filter f l :
  List.length (filter f (sortByLine l)) = List.length (filter f l).
Proof.
  induction l as [|x l IH]; [reflexivity|].
  unfold sortByLine in *. cbn [fold_right].
  rewrite insertByLine_filter. cbn [filter].
  destruct (f x); cbn [List.length]; now rewrite IH.
Qed.

Lemma sortByLine_length l :
  List.length (sortByLine l) = List.length l.
Proof.
  rewrite <- (filter_true l) at 2.
  rewrite <- (filter_true (sortByLine l)) at 1.
  apply sortByLine_filter.
Qed.

Lemma countLevel1_app a b :
  countLevel1 (a ++ b) = (countLevel1 a + countLevel1 b)%nat.
Proof. unfold countLevel1. now rewrite filter_app, length_app. Qed.

Lemma extractHeadings_length content path :
  List.length (extractHeadings content path)
  = (2 * List.length (tags content)
     + 2 * List.length (selfClosedTags content))%nat.
Proof.
  unfold extractHeadings. rewrite sortByLine_length.
  cbn [HEADING_PATTERNS flat_map]. rewrite !length_app, !eventsOf_length.
  unfold component, componentSelfClosing. rewrite !execAll_letter.
  unfold tags, selfClosedTags, jsx, selfClosing. cbn [List.length]. lia.
Qed.

Lemma extractHeadings_level1 content path :
  countLevel1 (extractHeadings content path)
  = (2 * ofLevel1 (tags content)
     + 2 * ofLevel1 (selfClosedTags content))%nat.
Proof.
  unfold extractHeadings, countLevel1 at 1. rewrite sortByLine_filter.
  fold (countLevel1 (flat_map (eventsOf content path) HEADING_PATTERNS)).
  cbn [HEADING_PATTERNS flat_map].
  rewrite !countLevel1_app, !eventsOf_level1.
  unfold component, componentSelfClosing. rewrite !execAll_letter.
  unfold tags, selfClosedTags, jsx, selfClosing, countLevel1.
  cbn [filter List.length]. lia.
Qed.

(** The loop of [validateFileHierarchy]: level-1 headings are counted,
    a skip violation is pushed at every skip, nothing else is pushed. *)
Lemma fold_visitHeading path headings : forall w,
  let w' := fold_left (visitHeading path) headings w in
  fileH1Count w' = fileH1Count w + Z.of_nat (countLevel1 headings)
  /\ List.length (filter isSkip (violations w'))
     = (List.length (filter isSkip (violations w))
        + skips (lastLevel w) (map level headings))%nat
  /\ filter isMultipleH1 (violations w')
     = filter isMultipleH1 (violations w).
Proof.
  induction headings as [|h headings IH]; intros w.
  - cbn. repeat split; lia.
  - cbn [fold_left map skips]. cbv zeta in IH |- *.
    destruct (IH (visitHeading path w h)) as (Hcount & Hskip & Hmult).
    rewrite Hcount, Hskip, Hmult. clear IH Hcount Hskip Hmult.
    unfold visitHeading, countLevel1.
    cbn [fileH1Count violations lastLevel filter].
    destruct (level h =? 1), (level h >? lastLevel w + 1);
      rewrite ?filter_app, ?length_app; cbn [filter isSkip isMultipleH1
        List.length app]; rewrite ?app_nil_r; repeat split; lia.
Qed.

Lemma walkFile_facts headings path :
  fileH1Count (walkFile headings path) = Z.of_nat (countLevel1 headings)
  /\ List.length (filter isSkip (violations (walkFile headings path)))
     = skips 0 (map level headings)
  /\ filter isMultipleH1 (violations (walkFile headings path)) = [].
Proof.
  unfold walkFile.
  destruct (fold_visitHeading path headings (mkFileWalk 0 0 []))
    as (Hcount & Hskip & Hmult).
  cbn [fileH1Count violations lastLevel filter List.length] in *.
  repeat split; [lia | lia | exact Hmult].
Qed.

Lemma validateFileHierarchy_violations headings path summary :
  fst (validateFileHierarchy headings path summary)
  = (violations (walkFile headings path)
     ++ (if Z.of_nat (countLevel1 headings) >? 1
         then [multiple_h1
                 (multipleMessage (Z.of_nat (countLevel1 headings))) path
                 (Z.of_nat (countLevel1 headings))]
         else []))%list.
Proof.
  unfold validateFileHierarchy.
  destruct (walkFile_facts headings path) as (-> & _ & _).
  destruct (Z.of_nat (countLevel1 headings) >? 1); cbn [fst];
    now rewrite ?app_nil_r.
Qed.

Lemma validateFileHierarchy_h1Count headings path summary :
  h1Count (snd (validateFileHierarchy headings path summary))
  = h1Count summary + Z.of_nat (countLevel1 headings).
Proof.
  unfold validateFileHierarchy.
  destruct (walkFile_facts headings path) as (-> & _ & _).
  now destruct (Z.of_nat (countLevel1 headings) >? 1).
Qed.

(** *** Self-closed tags are tags

    The self-closed pattern matches only where the open pattern matches,
    with the same text, and never inside the text of an open match it
    rejected; its matches are therefore among the open pattern's. *)

Lemma matchHere_selfClosing_jsx s r :
  matchHere selfClosing s = Some r -> matchHere jsx s = Some r.
Proof.
  destruct s as [|c [|l [|d tail]]]; try discriminate.
  - destruct c as [[] [] [] [] [] [] [] []]; discriminate.
  - destruct c as [[] [] [] [] [] [] [] []]; discriminate.
  - unfold matchHere, selfClosing, jsx. cbn [letter selfClosed].
    destruct c as [[] [] [] [] [] [] [] []]; try discriminate.
    destruct (sameLetter l "h"); [|discriminate].
    destruct (Js.digit16 d); [|discriminate].
    destruct (untilGt tail) as [body|]; [|discriminate].
    cbn [implb]. now destruct (endsWithSlash body).
Qed.

Lemma matchHere_not_lt p c s :
  Ascii.eqb c "<" = false -> matchHere p (String c s) = None.
Proof.
  destruct c as [[] [] [] [] [] [] [] []]; try reflexivity; discriminate.
Qed.

Lemma sameLetter_not_lt l : sameLetter l "h" = true -> Ascii.eqb l "<" = false.
Proof. destruct l as [[] [] [] [] [] [] [] []]; vm_compute; congruence. Qed.

Lemma sameLetter_not_gt l : sameLetter l "h" = true -> isGt l = false.
Proof. destruct l as [[] [] [] [] [] [] [] []]; vm_compute; congruence. Qed.

Lemma digit16_not_lt d z : Js.digit16 d = Some z -> Ascii.eqb d "<" = false.
Proof. destruct d as [[] [] [] [] [] [] [] []]; vm_compute; congruence. Qed.

Lemma digit16_not_gt d z : Js.digit16 d = Some z -> isGt d = false.
Proof. destruct d as [[] [] [] [] [] [] [] []]; vm_compute; congruence. Qed.

Lemma endsWithSlash_cons c s :
  endsWithSlash s = true -> endsWithSlash (String c s) = true.
Proof. destruct s; [discriminate | trivial]. Qed.

Lemma endsWithSlash_tail c s :
  endsWithSlash (String c s) = false -> endsWithSlash s = false.
Proof.
  destruct (endsWithSlash s) eqn:H; [|reflexivity].
  now rewrite (endsWithSlash_cons c s H).
Qed.

(** Inside a text that runs up to the next [>] without ending in [/],
    no self-closed match can start. *)
Lemma no_selfClosed_at c t body :
  untilGt t = Some body -> endsWithSlash body = false ->
  matchHere selfClosing (String c t) = None.
Proof.
  intros Hbody Hslash.
  destruct (matchHere selfClosing (String c t)) as [r|] eqn:Hm;
    [exfalso | reflexivity].
  destruct t as [|l [|d tail]];
    try (destruct c as [[] [] [] [] [] [] [] []]; discriminate).
  unfold matchHere, selfClosing in Hm. cbn [letter selfClosed] in Hm.
  destruct c as [[] [] [] [] [] [] [] []]; try discriminate.
  destruct (sameLetter l "h") eqn:Hl; [|discriminate].
  destruct (Js.digit16 d) as [z|] eqn:Hd; [|discriminate].
  destruct (untilGt tail) as [inner|] eqn:Hinner; [|discriminate].
  cbn [implb] in Hm.
  destruct (endsWithSlash inner) eqn:Hin; [|discriminate].
  cbn [untilGt] in Hbody.
  rewrite (sameLetter_not_gt l Hl), (digit16_not_gt d z Hd), Hinner in Hbody.
  injection Hbody as <-.
  rewrite (endsWithSlash_cons l _ (endsWithSlash_cons d _ Hin)) in Hslash.
  discriminate.
Qed.

Lemma no_selfClosed_in_body t : forall body,
  untilGt t = Some body -> endsWithSlash body = false ->
  noSelfClosedWithin (S (String.length body)) t.
Proof.
  induction t as [|c t IH]; intros body Hbody Hslash; [discriminate|].
  cbn [untilGt] in Hbody. destruct (isGt c) eqn:Hc.
  - injection Hbody as <-. cbn [String.length noSelfClosedWithin].
    split; [|exact I]. apply matchHere_not_lt.
    unfold isGt in Hc. apply Ascii.eqb_eq in Hc. now subst c.
  - destruct (untilGt t) as [body'|] eqn:Ht; [|discriminate].
    injection Hbody as <-. cbn [String.length].
    change (noSelfClosedWithin (S (S (String.length body'))) (String c t))
      with (matchHere selfClosing (String c t) = None
            /\ noSelfClosedWithin (S (String.length body')) t).
    pose proof (endsWithSlash_tail c body' Hslash) as Hslash'.
    split; [now apply (no_selfClosed_at c t body') | now apply IH].
Qed.

Lemma length_snoc_gt body :
  String.length (body ++ ">") = S (String.length body).
Proof.
  induction body as [|c body IH]; [reflexivity|].
  cbn [append String.length]. now rewrite IH.
Qed.

Lemma matchHere_jsx_length c rest lvl m :
  matchHere jsx (String c rest) = Some (lvl, m) ->
  matchHere selfClosing (String c rest) = None ->
  noSelfClosedWithin (String.length m - 1) rest.
Proof.
  destruct rest as [|l [|d tail]];
    try (destruct c as [[] [] [] [] [] [] [] []]; discriminate).
  unfold matchHere, selfClosing, jsx. cbn [letter selfClosed].
  destruct c as [[] [] [] [] [] [] [] []]; try discriminate.
  destruct (sameLetter l "h") eqn:Hl; [|discriminate].
  destruct (Js.digit16 d) as [z|] eqn:Hd; [|discriminate].
  destruct (untilGt tail) as [body|] eqn:Hbody; [|discriminate].
  cbn [implb]. intros Hm Hself. injection Hm as <- <-.
  destruct (endsWithSlash body) eqn:Hslash; [discriminate|].
  assert (Hlen : (String.length
                    (String "<" (String l (String d (body ++ ">")))) - 1)%nat
                 = S (S (S (String.length body)))).
  { cbn [String.length]. rewrite length_snoc_gt. lia. }
  rewrite Hlen.
  change (matchHere selfClosing (String l (String d tail)) = None
          /\ matchHere selfClosing (String d tail) = None
             /\ noSelfClosedWithin (S (String.length body)) tail).
  split; [apply matchHere_not_lt, sameLetter_not_lt, Hl|].
  split; [apply matchHere_not_lt, (digit16_not_lt d z), Hd|].
  now apply no_selfClosed_in_body.
Qed.

Lemma selfClosed_among_tags (f : Z * string * Z -> bool) content :
  forall skip line,
  (noSelfClosedWithin skip content ->
   (List.length (filter f (execAll selfClosing 0 line content))
    <= List.length (filter f (execAll jsx skip line content)))%nat)
  /\ (List.length (filter f (execAll selfClosing skip line content))
      <= List.length (filter f (execAll jsx skip line content)))%nat.
Proof.
  induction content as [|c rest IH]; intros skip line.
  - split; intros; apply Nat.le_refl.
  - set (line' := if isNewline c then line + 1 else line).
    assert (Hsame :
              (List.length
                 (filter f (execAll selfClosing skip line (String c rest)))
               <= List.length
                    (filter f (execAll jsx skip line (String c rest))))%nat).
    { cbn [execAll]. fold line'. destruct skip as [|k]; [|apply IH].
      destruct (matchHere selfClosing (String c rest)) as [[lvl m]|] eqn:Hself.
      - rewrite (matchHere_selfClosing_jsx _ _ Hself). cbn [filter].
        pose proof (proj2 (IH (String.length m - 1)%nat line')) as Hrest.
        destruct (f (lvl, m, line)); cbn [List.length]; lia.
      - destruct (matchHere jsx (String c rest)) as [[lvl m]|] eqn:Hjsx.
        + pose proof (proj1 (IH (String.length m - 1)%nat line')
                        (matchHere_jsx_length _ _ _ _ Hjsx Hself)) as Hrest.
          cbn [filter]. destruct (f (lvl, m, line)); cbn [List.length]; lia.
        + apply IH. }
    split; [|exact Hsame].
    destruct skip as [|k]; [intros _; exact Hsame|].
    intros [Hnone Hrest]. cbn [execAll]. fold line'. rewrite Hnone.
    now apply IH.
Qed.

Lemma selfClosedTags_le_tags content :
  (ofLevel1 (selfClosedTags content) <= ofLevel1 (tags content))%nat
  /\ (List.length (selfClosedTags content) <= List.length (tags content))%nat.
Proof.
  split.
  - apply (selfClosed_among_tags _ content 0%nat 1).
  - rewrite <- (filter_true (selfClosedTags content)).
    rewrite <- (filter_true (tags content)).
    apply (selfClosed_among_tags _ content 0%nat 1).
Qed.

(** *** Every tag is extracted more than once *)

(** How often a tag is extracted.  The pattern written with [H] finds
    exactly what the pattern written with [h] finds, for the open and
    for the self-closed form, so every match of the open pattern is
    extracted twice, and twice more where the self-closed pattern
    matches too.  A file with exactly one level-1 match of the open
    pattern is therefore counted with two or with four level-1 headings
    and is reported with a [multiple_h1] violation. *)
Lemma single_h1_reported_as_multiple content path summary
    (Hsingle : ofLevel1 (tags content) = 1%nat) :
  let n := (2 + 2 * ofLevel1 (selfClosedTags content))%nat in
  let headings := extractHeadings content path in
  execAll component 0 1 content = tags content
  /\ execAll componentSelfClosing 0 1 content = selfClosedTags content
  /\ List.length headings
     = (2 * List.length (tags content)
        + 2 * List.length (selfClosedTags content))%nat
  /\ (2 * List.length (tags content) <= List.length headings
      <= 4 * List.length (tags content))%nat
  /\ countLevel1 headings = n
  /\ (n = 2 \/ n = 4)%nat
  /\ h1Count (snd (validateFileHierarchy headings path summary))
     = h1Count summary + Z.of_nat n
  /\ In (multiple_h1 (multipleMessage (Z.of_nat n)) path (Z.of_nat n))
        (fst (validateFileHierarchy headings path summary))
  /\ (ofLevel1 (selfClosedTags content) = 0%nat ->
      h1Count (snd (validateFileHierarchy headings path emptySummary)) = 2).
Proof.
  cbv zeta.
  assert (Hn : countLevel1 (extractHeadings content path)
               = (2 + 2 * ofLevel1 (selfClosedTags content))%nat).
  { rewrite extractHeadings_level1, Hsingle. lia. }
  split; [apply execAll_letter|]. split; [apply execAll_letter|].
  split; [apply extractHeadings_length|].
  split; [rewrite extractHeadings_length;
          pose proof (proj2 (selfClosedTags_le_tags content)); lia|].
  split; [exact Hn|].
  split; [pose proof (proj1 (selfClosedTags_le_tags content)); lia|].
  split; [now rewrite validateFileHierarchy_h1Count, Hn|].
  split.
  - rewrite validateFileHierarchy_violations, Hn. apply in_or_app. right.
    destruct (Z.gtb_spec
                (Z.of_nat (2 + 2 * ofLevel1 (selfClosedTags content))) 1);
      [now left | lia].
  - intros Hopen. rewrite validateFileHierarchy_h1Count, Hn, Hopen.
    reflexivity.
Qed.

Lemma single_h1_reported_as_multiple_witness :
  ofLevel1 (tags "<h1>Title</h1>") = 1%nat
  /\ h1Count (snd (validateFileHierarchy
                     (extractHeadings "<h1>Title</h1>" "page.tsx")
                     "page.tsx" emptySummary)) = 2
  /\ fst (validateFileHierarchy
            (extractHeadings "<h1>Title</h1>" "page.tsx")
            "page.tsx" emptySummary)
     = [multiple_h1 "Multiple H1 headings found (2 total)" "page.tsx" 2].
Proof.
  split; [reflexivity|].
  pose proof (single_h1_reported_as_multiple "<h1>Title</h1>" "page.tsx"
                emptySummary eq_refl) as H.
  cbv zeta in H.
  split;
    [exact (proj2 (proj2 (proj2 (proj2 (proj2 (proj2 (proj2 (proj2 H)))))))
              eq_refl)|].
  reflexivity.
Defined.

(** A tag written self-closed is found by all four patterns: the one
    level-1 tag of this file is extracted four times and counted as four
    level-1 headings. *)
Lemma self_closed_h1_counted_four_times :
  tags "<H1 />" = [(1, "<H1 />", 1)]
  /\ List.length (extractHeadings "<H1 />" "page.tsx") = 4%nat
  /\ h1Count (snd (validateFileHierarchy
                     (extractHeadings "<H1 />" "page.tsx")
                     "page.tsx" emptySummary)) = 4
  /\ h1Count (snd (validateFileHierarchy
                     (extractHeadings "<H1 />" "page.tsx")
                     "page.tsx" emptySummary)) <> 2.
Proof. repeat split. discriminate. Qed.


End Script.

(** ** The rule shared by the three checkers *)

Module Hierarchy.
Import Heading Audit Outline.

Ltac levels_0_6 x :=
  let H := fresh "Hcases" in
  assert (x = 0 \/ x = 1 \/ x = 2 \/ x = 3 \/ x = 4 \/ x = 5 \/ x = 6)
    as H by lia;
  destruct H as [-> | [-> | [-> | [-> | [-> | [-> | ->]]]]]].

Lemma snoc_neq {A} (l : list A) x : (l ++ [x])%list <> l.
Proof.
  intros H. apply (f_equal (@List.length A)) in H.
  rewrite length_app in H. cbn in H. lia.
Qed.

Lemma visitTag_heading observed prior es :
  1 <= observed <= 6 ->
  visitTag (HeadingTag observed) (mkWalk prior es)
  = mkWalk observed
           (if observed >? prior + 1
            then (es ++ [foundMessage (HeadingTag observed) prior])%list
            else es).
Proof.
  intros H. unfold visitTag.
  now destruct (TreeAudit.heading_tag_test observed H) as (-> & -> & _).
Qed.

(** *** The per-step rule *)

(** C5: for a prior level in 0..6 and an observed level in 1..6, each of
    the three checkers reports a skip exactly when the observed level
    exceeds the prior level by more than one: the tracker in development,
    the step of the tree audit, and the step of the script.  At a level
    equal to or shallower than the prior level none of them reports. *)
Theorem skip_rule (prior observed : Z)
    (Hprior : 0 <= prior <= 6) (Hobserved : 1 <= observed <= 6) :
  (warnings (registerHeading "development" (mkScope prior) observed) <> []
   <-> observed > prior + 1)
  /\ (forall es,
        errors (visitTag (HeadingTag observed) (mkWalk prior es)) <> es
        <-> observed > prior + 1)
  /\ (forall path count vs ty m line file,
        violations (visitHeading path (mkFileWalk prior count vs)
                                 (mkEvent observed ty m line file)) <> vs
        <-> observed > prior + 1)
  /\ (observed <= prior ->
      warnings (registerHeading "development" (mkScope prior) observed) = []
      /\ (forall es,
            errors (visitTag (HeadingTag observed) (mkWalk prior es)) = es)
      /\ (forall path count vs ty m line file,
            violations (visitHeading path (mkFileWalk prior count vs)
                                     (mkEvent observed ty m line file))
            = vs)).
Proof.
  split; [|split; [|split]].
  - rewrite Tracker.register_development. cbn [currentLevel].
    destruct (Z.gtb_spec observed (prior + 1)); split; intros;
      try lia; congruence.
  - intros es. rewrite (visitTag_heading _ _ _ Hobserved). cbn [errors].
    destruct (Z.gtb_spec observed (prior + 1)); split; intros;
      try lia; try congruence. apply snoc_neq.
  - intros path count vs ty m line file. unfold visitHeading.
    cbn [violations level lastLevel].
    destruct (Z.gtb_spec observed (prior + 1)); split; intros;
      try lia; try congruence. apply snoc_neq.
  - intros Hle. split; [|split].
    + rewrite Tracker.register_development. cbn [currentLevel].
      destruct (Z.gtb_spec observed (prior + 1)); [lia | reflexivity].
    + intros es. rewrite (visitTag_heading _ _ _ Hobserved). cbn [errors].
      destruct (Z.gtb_spec observed (prior + 1)); [lia | reflexivity].
    + intros path count vs ty m line file. unfold visitHeading.
      cbn [violations level lastLevel].
      destruct (Z.gtb_spec observed (prior + 1)); [lia | reflexivity].
Qed.

Lemma skip_rule_witness :
  (0 <= 3 <= 6) /\ (1 <= 5 <= 6)
  /\ (warnings (registerHeading "development" (mkScope 3) 5) <> []
      <-> 5 > 3 + 1).
Proof.
  split; [lia|]. split; [lia|].
  exact (proj1 (skip_rule 3 5 ltac:(lia) ltac:(lia))).
Defined.

(** *** The message of a skip violation *)

(** The message of a skip.  When the rule flags a skip from prior level
    [prior] to level [observed], the warning of a call on a scope at
    level [prior] (in development) and the error of the audit step both
    name [H prior] and [H observed] and propose [H (prior + 1)]; the
    headings [1; 4] audited as a tree yield exactly one error, from H1
    to H4, proposing H2, and the script's record of the skip holds level
    4 and previous level 1. *)
Lemma skip_message (prior observed : Z)
    (Hprior : 0 <= prior <= 6) (Hobserved : 1 <= observed <= 6)
    (Hskip : observed > prior + 1) :
  let warning :=
    "Heading hierarchy violation: Jumping from H" ++ Js.toString prior
      ++ " to H" ++ Js.toString observed
      ++ ". Consider using H" ++ Js.toString (prior + 1) ++ " instead." in
  let error :=
    "Heading hierarchy violation: Found H" ++ Js.toString observed
      ++ " after H" ++ Js.toString prior
      ++ ". Consider using H" ++ Js.toString (prior + 1) ++ " instead." in
  warnings (registerHeading "development" (mkScope prior) observed)
    = [warning]
  /\ (forall es,
        errors (visitTag (HeadingTag observed) (mkWalk prior es))
        = (es ++ [error])%list)
  /\ Js.includes warning ("from H" ++ Js.toString prior) = true
  /\ Js.includes warning ("to H" ++ Js.toString observed) = true
  /\ Js.includes warning ("using H" ++ Js.toString (prior + 1)) = true
  /\ Js.includes error ("Found H" ++ Js.toString observed) = true
  /\ Js.includes error ("after H" ++ Js.toString prior) = true
  /\ Js.includes error ("using H" ++ Js.toString (prior + 1)) = true
  /\ validateHeadingHierarchy (page [1; 4])
     = ["Heading hierarchy violation: Found H4 after H1. "
          ++ "Consider using H2 instead."]
  /\ violations (walkFile (eventsFrom 1 "page.tsx" [1; 4]) "page.tsx")
     = [hierarchy_skip
          "Heading hierarchy violation: H4 follows H1 (skipped H2)"
          "page.tsx" 2 4 1].
Proof.
  cbv zeta. split; [|split].
  - rewrite Tracker.register_development. cbn [currentLevel].
    destruct (Z.gtb_spec observed (prior + 1)); [reflexivity | lia].
  - intros es. rewrite (visitTag_heading _ _ _ Hobserved). cbn [errors].
    destruct (Z.gtb_spec observed (prior + 1)); [|lia].
    unfold foundMessage.
    now destruct (TreeAudit.heading_tag_test observed Hobserved)
      as (_ & _ & ->).
  - levels_0_6 prior;
      assert (observed = 2 \/ observed = 3 \/ observed = 4 \/ observed = 5
              \/ observed = 6) as Hcases by lia;
      destruct Hcases as [-> | [-> | [-> | [-> | ->]]]];
      try lia; vm_compute; repeat split.
Qed.

Lemma skip_message_witness :
  (0 <= 1 <= 6) /\ (1 <= 4 <= 6) /\ 4 > 1 + 1
  /\ warnings (registerHeading "development" (mkScope 1) 4)
     = ["Heading hierarchy violation: Jumping from H1 to H4. "
          ++ "Consider using H2 instead."].
Proof.
  split; [lia|]. split; [lia|]. split; [lia|].
  exact (proj1 (skip_message 1 4 ltac:(lia) ltac:(lia) ltac:(lia))).
Defined.

(** C8: the tree of the unit test, [H1] then [H4] under a provider of
    initial level 0, in development.  Both effects of the mounting
    commit call the callback that captured level 0, so the one warning
    names H0 as prior level and proposes H1, where the claim, the sample
    message of the documentation and the comment of the test expect H1
    and H2.  The audit of the same headings, and a single call on a
    scope at level 1, do give the expected message. *)
Lemma commit_compares_with_render_level :
  commit "development" (HeadingProvider 0) [1; 4]
  = (["Heading hierarchy violation: Jumping from H0 to H4. "
        ++ "Consider using H1 instead."], mkScope 4)
  /\ validateHeadingHierarchy (page [1; 4])
     = ["Heading hierarchy violation: Found H4 after H1. "
          ++ "Consider using H2 instead."]
  /\ warnings (registerHeading "development" (mkScope 1) 4)
     = ["Heading hierarchy violation: Jumping from H1 to H4. "
          ++ "Consider using H2 instead."].
Proof. repeat split. Qed.

(** *** The first heading *)

(** C2, as the code has it: on a scope created with initial level 0 the
    first heading is flagged unless it is level 1, by the tracker (in
    development) and by the audit alike; the sequence [2; 4] yields two
    violations, one for each heading. *)
Theorem first_heading_rule (level : Z) (Hlevel : 1 <= level <= 6) :
  (warnings (registerHeading "development" (HeadingProvider 0) level) = []
   <-> level = 1)
  /\ (validateHeadingHierarchy (page [level]) = [] <-> level = 1)
  /\ List.length (fst (registerAll "development" (HeadingProvider 0) [2; 4]))
     = 2%nat
  /\ List.length (validateHeadingHierarchy (page [2; 4])) = 2%nat.
Proof.
  split; [|split; [|split; reflexivity]].
  - rewrite Tracker.register_development. cbn [currentLevel HeadingProvider].
    destruct (Z.gtb_spec level (0 + 1)); split; intros;
      try lia; congruence.
  - rewrite TreeAudit.validate_scan, TreeAudit.headingSequence_page
      by (repeat constructor; lia).
    cbn [scan]. rewrite app_nil_r.
    destruct (Z.gtb_spec level (0 + 1)); split; intros;
      try lia; congruence.
Qed.

Lemma first_heading_rule_witness :
  (1 <= 1 <= 6)
  /\ (warnings (registerHeading "development" (HeadingProvider 0) 1) = []
      <-> 1 = 1).
Proof.
  split; [lia|]. exact (proj1 (first_heading_rule 1 ltac:(lia))).
Defined.

(** C2 fails as stated: a first heading of level 2 on a fresh scope is
    flagged, so [2; 4] yields two violations, in the tracker and in the
    audit. *)
Lemma first_heading_h2_flagged :
  warnings (registerHeading "development" (HeadingProvider 0) 2)
    = ["Heading hierarchy violation: Jumping from H0 to H2. "
         ++ "Consider using H1 instead."]
  /\ fst (registerAll "development" (HeadingProvider 0) [2; 4])
     = ["Heading hierarchy violation: Jumping from H0 to H2. "
          ++ "Consider using H1 instead.";
        "Heading hierarchy violation: Jumping from H2 to H4. "
          ++ "Consider using H3 instead."]
  /\ headingSequence (page [2; 4]) = [2; 4]
  /\ validateHeadingHierarchy (page [2; 4])
     = ["Heading hierarchy violation: Found H2 after H0. "
          ++ "Consider using H1 instead.";
        "Heading hierarchy violation: Found H4 after H2. "
          ++ "Consider using H3 instead."].
Proof. repeat split. Qed.

(** *** Legal sequences *)

Lemma scan_stepwise levels : forall prior,
  scan prior levels = [] <-> stepwise prior levels = true.
Proof.
  intros prior. rewrite <- Tracker.skips_stepwise, <- TreeAudit.scan_length.
  now rewrite length_zero_iff_nil.
Qed.

Lemma stepwise_byWatermark levels : forall prior deepest,
  prior <= deepest ->
  stepwise prior levels = true -> byWatermark deepest levels = true.
Proof.
  induction levels as [|l rest IH]; intros prior deepest Hle; [reflexivity|].
  cbn [stepwise byWatermark]. rewrite !andb_true_iff, !Z.leb_le.
  intros [Hl Hrest]. split; [lia|]. apply (IH l); [lia | exact Hrest].
Qed.

(** C3, as the code has it: every tree whose heading sequence has each
    heading at most one level deeper than the heading just before it
    (the first at most level 1) is audited to the empty list, and a
    register call whose level is at most one deeper than the level of
    the scope it is made on produces no violation, in any
    configuration.  Such a sequence is in particular legal relative to
    the deepest level seen so far. *)
Theorem stepwise_sequences_pass env levels element
    (Hlegal : stepwise 0 levels = true)
    (Htree : headingSequence element = levels) :
  validateHeadingHierarchy element = []
  /\ (forall s level,
        level <= currentLevel s + 1 ->
        warnings (registerHeading env s level) = [])
  /\ byWatermark 0 levels = true.
Proof.
  split; [|split].
  - rewrite TreeAudit.validate_scan, Htree. now apply scan_stepwise.
  - intros s level Hle. unfold registerHeading. cbn [warnings].
    destruct (String.eqb env "development"); [|reflexivity].
    destruct (Z.gtb_spec level (currentLevel s + 1)); [lia | reflexivity].
  - apply (stepwise_byWatermark levels 0 0); [lia | exact Hlegal].
Qed.

Lemma stepwise_sequences_pass_witness :
  stepwise 0 [1; 2; 3; 2; 3] = true
  /\ headingSequence (page [1; 2; 3; 2; 3]) = [1; 2; 3; 2; 3]
  /\ validateHeadingHierarchy (page [1; 2; 3; 2; 3]) = [].
Proof.
  split; [reflexivity|]. split; [reflexivity|].
  exact (proj1 (stepwise_sequences_pass "development" [1; 2; 3; 2; 3]
                  (page [1; 2; 3; 2; 3]) eq_refl eq_refl)).
Defined.

(** C3 fails as stated: in [1; 2; 1; 3] every heading is at most one
    level deeper than the deepest before it, yet the audit flags the 3
    that follows the second 1. *)
Lemma watermark_legal_sequence_flagged :
  byWatermark 0 [1; 2; 1; 3] = true
  /\ headingSequence (page [1; 2; 1; 3]) = [1; 2; 1; 3]
  /\ validateHeadingHierarchy (page [1; 2; 1; 3])
     = ["Heading hierarchy violation: Found H3 after H1. "
          ++ "Consider using H2 instead."]
  /\ validateHeadingHierarchy (page [1; 2; 1; 3]) <> [].
Proof. repeat split. discriminate. Qed.

(** *** Several top-level headings *)

(** C4, as the code has it: the tree audit reports skips and nothing
    else, so the sequence [1; 2; 1] is audited to the empty list.  The
    script's validator is the one that looks at level-1 headings: it
    adds one [multiple_h1] violation, carrying the count, when a file has
    more than one of them and none otherwise; two level-1 headings give
    exactly one such violation, one gives none, and the headings
    [1; 2; 1] give no skip and one [multiple_h1]. *)
Theorem duplicate_h1_rule headings path summary element :
  let vs := fst (validateFileHierarchy headings path summary) in
  List.length (filter isMultipleH1 vs)
    = (if (1 <? countLevel1 headings)%nat then 1 else 0)%nat
  /\ (countLevel1 headings = 2%nat ->
      List.length (filter isMultipleH1 vs) = 1%nat)
  /\ (countLevel1 headings = 1%nat ->
      List.length (filter isMultipleH1 vs) = 0%nat)
  /\ List.length (filter isSkip vs) = skips 0 (map level headings)
  /\ List.length (validateHeadingHierarchy element)
     = skips 0 (headingSequence element)
  /\ fst (validateFileHierarchy (eventsFrom 1 path [1; 2; 1]) path summary)
     = [multiple_h1 "Multiple H1 headings found (2 total)" path 2]
  /\ validateHeadingHierarchy (page [1; 2; 1]) = [].
Proof.
  cbv zeta.
  assert (Hmult : List.length
            (filter isMultipleH1
               (fst (validateFileHierarchy headings path summary)))
          = (if (1 <? countLevel1 headings)%nat then 1 else 0)%nat).
  { rewrite Script.validateFileHierarchy_violations, filter_app.
    destruct (Script.walkFile_facts headings path) as (_ & _ & ->).
    destruct (Nat.ltb_spec 1 (countLevel1 headings)) as [Hlt | Hge];
      destruct (Z.gtb_spec (Z.of_nat (countLevel1 headings)) 1);
      try lia; reflexivity. }
  split; [exact Hmult|].
  split; [intros H2; now rewrite Hmult, H2|].
  split; [intros H1; now rewrite Hmult, H1|].
  split.
  { rewrite Script.validateFileHierarchy_violations, filter_app, length_app.
    destruct (Script.walkFile_facts headings path) as (_ & -> & _).
    destruct (Z.of_nat (countLevel1 headings) >? 1); cbn; lia. }
  split.
  { now rewrite TreeAudit.validate_scan, TreeAudit.scan_length. }
  split; reflexivity.
Qed.

(** C4 fails as stated: the tree audit has no rule about level-1
    headings.  The tree with headings [1; 2; 1] is audited to the empty
    list, so no message of it can be the one duplicate violation; and
    where the script does count, three level-1 headings give one
    violation, not one per extra occurrence. *)
Lemma tree_audit_ignores_duplicate_h1 :
  headingSequence (page [1; 2; 1]) = [1; 2; 1]
  /\ validateHeadingHierarchy (page [1; 2; 1]) = []
  /\ (forall isDuplicate : string -> bool,
        List.length
          (filter isDuplicate (validateHeadingHierarchy (page [1; 2; 1])))
        <> 1%nat)
  /\ fst (validateFileHierarchy (eventsFrom 1 "page.tsx" [1; 1; 1])
                                "page.tsx" emptySummary)
     = [multiple_h1 "Multiple H1 headings found (3 total)" "page.tsx" 3].
Proof.
  split; [reflexivity|]. split; [reflexivity|]. split; [|reflexivity].
  intros isDuplicate. discriminate.
Qed.

End Hierarchy.

(** * Further properties *)

(** ** Levels, tags and the three checkers *)

Module Levels.
Import Heading Outline Component.

Lemma tagLevels_inRange tag : inRange (tagLevels tag).
Proof.
  unfold tagLevels, inRange. destruct (testHeadingTag tag) eqn:Htest.
  - destruct (TreeAudit.heading_tag_inv tag Htest) as (l & Hl & _ & ->).
    now repeat constructor.
  - constructor.
Qed.

(** The traversal only ever reads levels 1 to 6. *)
Lemma headingLevels_inRange : forall node asChildren,
  inRange (headingLevels asChildren node).
Proof.
  unfold inRange.
  induction node as [type children IH | | | | | items IH]
    using TreeAudit.ReactNode_nested_ind; intros asChildren;
    try constructor.
  - cbn [headingLevels]. apply Forall_app. split.
    + destruct type; [apply tagLevels_inRange | constructor].
    + destruct (truthy children); [apply IH | constructor].
  - cbn [headingLevels]. destruct asChildren; [|constructor].
    induction IH as [|item items Hitem _ IHitems]; [constructor|].
    cbn [flat_map]. apply Forall_app. split; [apply Hitem | exact IHitems].
Qed.

Lemma scan_In levels : forall prior e,
  In e (scan prior levels) ->
  exists before observed,
    In observed levels /\ (before = prior \/ In before levels)
    /\ observed > before + 1
    /\ e = foundMessage (HeadingTag observed) before.
Proof.
  induction levels as [|l rest IH]; intros prior e Hin; [destruct Hin|].
  cbn [scan] in Hin. apply in_app_or in Hin. destruct Hin as [Hin | Hin].
  - destruct (Z.gtb_spec l (prior + 1)); [|destruct Hin].
    destruct Hin as [<- | []]. exists prior, l.
    repeat split; [now left | now left | lia].
  - destruct (IH l e Hin) as (before & observed & Hobs & Hbefore & Hgt & ->).
    exists before, observed. split; [now right|]. split; [|now split].
    destruct Hbefore as [-> | Hbefore]; right; [now left | now right].
Qed.

(** X1: what the audit reads, and when it is satisfied.  The audit
    reads the intrinsic elements [h1] to [h6] it meets below a top-level
    element, in document order, and returns the empty list exactly when
    each of them is at most one level deeper than the one read before it
    (the first being level 1).  What it does not read cannot be flagged:
    a top-level array is not traversed, and an element of a component
    such as [H4] counts as no heading, only its children are read. *)
Theorem audit_clean_iff element :
  (validateHeadingHierarchy element = []
   <-> stepwise 0 (headingSequence element) = true)
  /\ (forall items, validateHeadingHierarchy (Nodes items) = [])
  /\ (forall name children,
        validateHeadingHierarchy (Element (Component name) children)
        = scan 0 (if truthy children then headingLevels true children
                  else []))
  /\ validateHeadingHierarchy
       (Element (Intrinsic "div")
          (Nodes [Element (Component "H1") (Text "Title");
                  Element (Component "H4") (Text "Deep")])) = [].
Proof.
  split; [|split; [|split]].
  - rewrite TreeAudit.validate_scan. apply Hierarchy.scan_stepwise.
  - reflexivity.
  - intros name children. now rewrite TreeAudit.validate_scan.
  - reflexivity.
Qed.

Lemma count_above_app (bound : Z) (a b : list Z) :
  List.length (filter (fun l => l >? bound) (a ++ b))
  = (List.length (filter (fun l => l >? bound) a)
     + List.length (filter (fun l => l >? bound) b))%nat.
Proof. now rewrite filter_app, length_app. Qed.

Lemma commit_development s levels :
  List.length (fst (commit "development" s levels))
  = List.length (filter (fun l => l >? currentLevel s + 1) levels).
Proof.
  unfold commit. cbn [fst].
  induction levels as [|l levels IH]; [reflexivity|].
  cbn [flat_map filter]. rewrite length_app, IH, Tracker.register_development.
  now destruct (l >? currentLevel s + 1).
Qed.

Lemma commit_scope env s levels :
  snd (commit env s levels) = mkScope (last levels (currentLevel s)).
Proof.
  unfold commit. cbn [snd]. generalize s at 2 3 as acc.
  induction levels as [|l levels IH]; intros acc.
  - now destruct acc.
  - cbn [fold_left]. rewrite IH, Tracker.register_scope, Tracker.last_cons.
    reflexivity.
Qed.

Lemma skips_le_above levels : forall prior,
  0 <= prior -> inRange levels ->
  (skips prior levels
   <= List.length (filter (fun l => l >? 0 + 1) levels))%nat.
Proof.
  induction levels as [|l levels IH]; intros prior Hprior Hrange;
    [apply Nat.le_refl|].
  inversion Hrange as [|? ? Hl Hrest]; subst.
  cbn [skips filter].
  pose proof (IH l ltac:(lia) Hrest) as Hle.
  destruct (Z.gtb_spec l (prior + 1)); destruct (Z.gtb_spec l (0 + 1));
    cbn [List.length]; lia.
Qed.

(** X2: the effects of one commit are all compared with the level of
    the render, not with one another.  In development a commit warns
    for exactly the headings more than one level above that level,
    whatever precedes them, and outside development for none; the level
    it leaves is that of the last heading.  On a fresh scope it warns
    for every heading above level 1, which includes every heading the
    audit flags in a tree with the same heading sequence. *)
Theorem commit_warns_against_render_level env s levels element
    (Htree : headingSequence element = levels) :
  List.length (fst (commit "development" s levels))
  = List.length (filter (fun l => l >? currentLevel s + 1) levels)
  /\ (String.eqb env "development" = false -> fst (commit env s levels) = [])
  /\ snd (commit env s levels) = mkScope (last levels (currentLevel s))
  /\ (List.length (validateHeadingHierarchy element)
      <= List.length (fst (commit "development" (HeadingProvider 0) levels)))%nat.
Proof.
  split; [apply commit_development|]. split; [|split].
  - intros Henv. unfold commit. cbn [fst].
    induction levels as [|l ls IH] in |- *; [reflexivity|].
    cbn [flat_map]. now rewrite (Tracker.register_silent _ _ _ Henv), IH.
  - apply commit_scope.
  - rewrite commit_development, TreeAudit.validate_scan, Htree,
      TreeAudit.scan_length.
    apply skips_le_above; [lia|].
    rewrite <- Htree. apply headingLevels_inRange.
Qed.

Lemma commit_warns_against_render_level_witness :
  headingSequence (page [1; 2; 3; 2; 3]) = [1; 2; 3; 2; 3]
  /\ List.length
       (fst (commit "development" (HeadingProvider 0) [1; 2; 3; 2; 3]))
     = 4%nat
  /\ validateHeadingHierarchy (page [1; 2; 3; 2; 3]) = [].
Proof.
  split; [reflexivity|]. split; [|reflexivity].
  exact (proj1 (commit_warns_against_render_level "development"
                  (HeadingProvider 0) [1; 2; 3; 2; 3]
                  (page [1; 2; 3; 2; 3]) eq_refl)).
Defined.

(** X3: every message of the audit reports a real skip between two
    heading levels: it names an observed level between 2 and 6, a prior
    level at least 0 and more than one below it, and proposes the level
    after the prior one, so always one of H1 to H5. *)
Theorem audit_errors_name_real_levels element e
    (Hin : In e (validateHeadingHierarchy element)) :
  exists prior observed,
    0 <= prior /\ prior + 1 < observed <= 6
    /\ e = "Heading hierarchy violation: Found H" ++ Js.toString observed
             ++ " after H" ++ Js.toString prior
             ++ ". Consider using H" ++ Js.toString (prior + 1)
             ++ " instead.".
Proof.
  rewrite TreeAudit.validate_scan in Hin.
  destruct (scan_In _ _ _ Hin)
    as (prior & observed & Hobs & Hprior & Hgt & ->).
  pose proof (headingLevels_inRange element false) as Hrange.
  unfold inRange in Hrange. rewrite Forall_forall in Hrange.
  pose proof (Hrange observed Hobs) as Hobserved.
  exists prior, observed. split; [|split; [lia|]].
  - destruct Hprior as [-> | Hprior]; [lia|].
    pose proof (Hrange prior Hprior). lia.
  - unfold foundMessage.
    now destruct (TreeAudit.heading_tag_test observed Hobserved)
      as (_ & _ & ->).
Qed.

Lemma audit_errors_name_real_levels_witness :
  In ("Heading hierarchy violation: Found H4 after H1. "
        ++ "Consider using H2 instead.")
     (validateHeadingHierarchy (page [1; 4]))
  /\ exists prior observed,
       0 <= prior /\ prior + 1 < observed <= 6
       /\ "Heading hierarchy violation: Found H4 after H1. "
            ++ "Consider using H2 instead."
          = "Heading hierarchy violation: Found H" ++ Js.toString observed
              ++ " after H" ++ Js.toString prior
              ++ ". Consider using H" ++ Js.toString (prior + 1)
              ++ " instead.".
Proof.
  split; [now left|].
  apply (audit_errors_name_real_levels (page [1; 4])). now left.
Defined.

(** Distinct numbers are written differently. *)
Lemma toString_inj a b : Js.toString a = Js.toString b -> a = b.
Proof.
  unfold Js.toString. intros H.
  assert (Hnonnil : forall z, Z.to_int z <> Decimal.Pos Decimal.Nil
                              /\ Z.to_int z <> Decimal.Neg Decimal.Nil).
  { intros [|p|p]; cbn; split; try discriminate; intros [= Hp];
      now apply (DecimalPos.Unsigned.to_uint_nonnil p). }
  apply DecimalZ.to_int_inj.
  assert (Some (Z.to_int a) = Some (Z.to_int b)) as [= ->]; [|reflexivity].
  rewrite <- (NilZero.isi (Z.to_int a)), <- (NilZero.isi (Z.to_int b));
    try apply Hnonnil.
  now rewrite H.
Qed.

Lemma headingTag_accepted a :
  testHeadingTag (HeadingTag a) = true <-> 1 <= a <= 6.
Proof.
  split.
  - intros Htest.
    destruct (TreeAudit.heading_tag_inv _ Htest) as (l & Hl & Heq & _).
    unfold HeadingTag in Heq. cbn [append] in Heq.
    injection Heq as Heq. apply toString_inj in Heq. now subst.
  - intros Ha. now apply TreeAudit.heading_tag_test.
Qed.

(** X4: what [Heading] renders is read back by the audit.  The tag of a
    heading is accepted by the audit's pattern exactly when the level it
    was built from is 1 to 6, and then the audit reads that level; a
    heading of any other level is passed over like a non-heading
    element.  In both cases the children are traversed. *)
Theorem rendered_heading_read_back level children autoLevel ctx :
  let a := actualLevel autoLevel ctx level in
  (testHeadingTag (HeadingTag a) = true <-> 1 <= a <= 6)
  /\ headingSequence (Heading level children autoLevel ctx)
     = ((if andb (1 <=? a) (a <=? 6) then [a] else [])
        ++ (if truthy children then headingLevels true children else []))%list.
Proof.
  cbv zeta. split; [apply headingTag_accepted|].
  unfold headingSequence, Heading. cbn [headingLevels]. f_equal.
  set (a := actualLevel autoLevel ctx level).
  destruct (andb (1 <=? a) (a <=? 6)) eqn:Hrange.
  - apply andb_true_iff in Hrange. rewrite !Z.leb_le in Hrange.
    apply TreeAudit.tagLevels_heading. lia.
  - unfold tagLevels.
    destruct (testHeadingTag (HeadingTag a)) eqn:Htest; [|reflexivity].
    apply headingTag_accepted in Htest.
    apply andb_false_iff in Hrange. rewrite !Z.leb_gt in Hrange. lia.
Qed.

(** X5: a heading that takes its level from the context is never
    reported.  Its level is one more than the current level, capped at
    6; registering it produces no warning in any configuration; and when
    the current level is 0 to 6 the level is 1 to 6 and the audit, coming
    from a heading of the current level, accepts the rendered tag
    without an error. *)
Theorem auto_level_never_flagged env level s es
    (Hcurrent : 0 <= currentLevel s <= 6) :
  let a := actualLevel true (currentLevel s) level in
  a = Z.min (currentLevel s + 1) 6
  /\ 1 <= a <= 6
  /\ warnings (HeadingEffect env level true s) = []
  /\ currentLevel (scope (HeadingEffect env level true s)) = a
  /\ visitTag (HeadingTag a) (mkWalk (currentLevel s) es) = mkWalk a es.
Proof.
  cbv zeta. unfold HeadingEffect, actualLevel.
  set (a := Z.min (currentLevel s + 1) 6).
  assert (Ha : 1 <= a <= 6) by (subst a; lia).
  split; [reflexivity|]. split; [exact Ha|]. split; [|split].
  - unfold registerHeading. cbn [warnings].
    destruct (String.eqb env "development"); [|reflexivity].
    destruct (Z.gtb_spec a (currentLevel s + 1)); [subst a; lia | reflexivity].
  - reflexivity.
  - rewrite (Hierarchy.visitTag_heading a _ es Ha).
    destruct (Z.gtb_spec a (currentLevel s + 1)); [subst a; lia | reflexivity].
Qed.

Lemma auto_level_never_flagged_witness :
  0 <= currentLevel (mkScope 6) <= 6
  /\ warnings (HeadingEffect "development" 2 true (mkScope 6)) = []
  /\ currentLevel (scope (HeadingEffect "development" 2 true (mkScope 6))) = 6.
Proof.
  split; [cbn; lia|].
  pose proof (auto_level_never_flagged "development" 2 (mkScope 6) []
                ltac:(cbn; lia)) as H.
  cbv zeta in H.
  exact (conj (proj1 (proj2 (proj2 H))) (proj1 (proj2 (proj2 (proj2 H))))).
Defined.

(** X18: findings are stable under continuation.  When the heading
    sequence of a tree continues that of another, the audit of the
    longer one begins with the audit of the shorter one; what is added
    only depends on the last level of the shorter one and on the
    continuation, and is nothing when the continuation proceeds by steps
    of at most one level from there. *)
Theorem audit_stable_under_continuation element element' more
    (Hmore : headingSequence element' = (headingSequence element ++ more)%list) :
  validateHeadingHierarchy element'
  = (validateHeadingHierarchy element
     ++ scan (last (headingSequence element) 0) more)%list
  /\ (stepwise (last (headingSequence element) 0) more = true ->
      validateHeadingHierarchy element' = validateHeadingHierarchy element).
Proof.
  assert (Heq : validateHeadingHierarchy element'
                = (validateHeadingHierarchy element
                   ++ scan (last (headingSequence element) 0) more)%list).
  { rewrite !TreeAudit.validate_scan, Hmore. apply TreeAudit.scan_app. }
  split; [exact Heq|].
  intros Hstep. rewrite Heq.
  apply Hierarchy.scan_stepwise in Hstep. rewrite Hstep. apply app_nil_r.
Qed.

Lemma audit_stable_under_continuation_witness :
  headingSequence (page [1; 3; 2; 3])
  = (headingSequence (page [1; 3]) ++ [2; 3])%list
  /\ validateHeadingHierarchy (page [1; 3; 2; 3])
     = validateHeadingHierarchy (page [1; 3]).
Proof.
  split; [reflexivity|].
  exact (proj2 (audit_stable_under_continuation (page [1; 3])
                  (page [1; 3; 2; 3]) [2; 3] eq_refl) eq_refl).
Defined.

End Levels.

(** ** What [extractHeadings] returns *)

Module Extraction.
Import Audit Outline.

(** *** Order *)

Lemma insertByLine_perm x l : Permutation (insertByLine x l) (x :: l).
Proof.
  induction l as [|y l IH]; [reflexivity|].
  cbn [insertByLine]. destruct (lineNumber x <=? lineNumber y);
    [reflexivity|].
  rewrite IH. apply perm_swap.
Qed.

Lemma sortByLine_perm l : Permutation (sortByLine l) l.
Proof.
  induction l as [|x l IH]; [reflexivity|].
  unfold sortByLine in *. cbn [fold_right].
  rewrite insertByLine_perm. now constructor.
Qed.

Lemma insertByLine_hd x y l :
  byLine y x -> HdRel byLine y l -> HdRel byLine y (insertByLine x l).
Proof.
  intros Hyx Hhd. destruct l as [|z l]; cbn [insertByLine].
  - now constructor.
  - inversion Hhd; subst.
    destruct (lineNumber x <=? lineNumber z); now constructor.
Qed.

Lemma insertByLine_sorted x l :
  Sorted byLine l -> Sorted byLine (insertByLine x l).
Proof.
  induction 1 as [|y l Hsorted IH Hhd]; cbn [insertByLine].
  - repeat constructor.
  - destruct (Z.leb_spec (lineNumber x) (lineNumber y)) as [Hle | Hgt].
    + constructor; [now constructor | now constructor].
    + constructor; [exact IH|].
      apply insertByLine_hd; [unfold byLine; lia | exact Hhd].
Qed.

Lemma sortByLine_sorted l : Sorted byLine (sortByLine l).
Proof.
  induction l as [|x l IH]; [constructor|].
  unfold sortByLine in *. cbn [fold_right]. now apply insertByLine_sorted.
Qed.

(** X6: the headings come back ordered by line number, every event
    before all events of later lines, and sorting neither drops nor
    invents an event: the result is a rearrangement of what the four
    patterns found. *)
Theorem headings_sorted_by_line content path :
  StronglySorted byLine (extractHeadings content path)
  /\ Permutation (extractHeadings content path)
       (flat_map (eventsOf content path) HEADING_PATTERNS).
Proof.
  split; [|apply sortByLine_perm].
  apply Sorted_StronglySorted; [|apply sortByLine_sorted].
  intros a b c. unfold byLine. lia.
Qed.

(** *** Every event is an occurrence of a tag *)

Lemma digit16_range d z : Js.digit16 d = Some z -> 1 <= z <= 6.
Proof.
  unfold Js.digit16.
  destruct (Nat.leb_spec 49 (nat_of_ascii d)); [|discriminate].
  destruct (Nat.leb_spec (nat_of_ascii d) 54); [|discriminate].
  cbn [andb]. intros [= <-]. lia.
Qed.

Lemma append_gt body rest : (body ++ ">") ++ rest = body ++ String ">" rest.
Proof.
  induction body as [|c body IH]; [reflexivity|].
  cbn [append]. now rewrite IH.
Qed.

Lemma untilGt_split t : forall body,
  untilGt t = Some body ->
  exists rest, t = body ++ String ">" rest /\ untilGt body = None.
Proof.
  induction t as [|c t IH]; intros body H; [discriminate|].
  cbn [untilGt] in H. destruct (isGt c) eqn:Hc.
  - injection H as <-. exists t. split; [|reflexivity].
    unfold isGt in Hc. apply Ascii.eqb_eq in Hc. now subst c.
  - destruct (untilGt t) as [body'|] eqn:Ht; [|discriminate].
    injection H as <-. destruct (IH body' eq_refl) as (rest & -> & Hnone).
    exists rest. split; [reflexivity|].
    cbn [untilGt]. now rewrite Hc, Hnone.
Qed.

Lemma sameLetter_of_pattern p l :
  (letter p = "h" \/ letter p = "H")%char ->
  sameLetter l (letter p) = sameLetter l "h".
Proof. intros [-> | ->]; reflexivity. Qed.

Lemma matchHere_occurrence p s lvl m :
  headingPattern p ->
  matchHere p s = Some (lvl, m) ->
  tagText lvl m /\ exists after, s = m ++ after.
Proof.
  intros Hp. destruct s as [|c [|l [|d tail]]];
    try (destruct c as [[] [] [] [] [] [] [] []]; discriminate);
    try discriminate.
  unfold matchHere. rewrite (sameLetter_of_pattern p l Hp).
  destruct c as [[] [] [] [] [] [] [] []]; try discriminate.
  destruct (sameLetter l "h") eqn:Hl; [|discriminate].
  destruct (Js.digit16 d) as [z|] eqn:Hd; [|discriminate].
  destruct (untilGt tail) as [body|] eqn:Hbody; [|discriminate].
  destruct (implb (selfClosed p) (endsWithSlash body)); [|discriminate].
  intros [= <- <-].
  destruct (untilGt_split tail body Hbody) as (rest & -> & Hnone).
  split.
  - now exists l, d, body.
  - exists rest. cbn [append]. do 3 f_equal.
    symmetry. apply append_gt.
Qed.

Lemma newlines_app a b : newlines (a ++ b) = newlines a + newlines b.
Proof.
  induction a as [|c a IH]; [reflexivity|].
  cbn [append newlines]. rewrite IH. lia.
Qed.

Lemma newlines_nonneg s : 0 <= newlines s.
Proof.
  induction s as [|c s IH]; [reflexivity|].
  cbn [newlines]. destruct (isNewline c); lia.
Qed.

Lemma occursAt_cons c content line r :
  occursAt content (if isNewline c then line + 1 else line) r ->
  occursAt (String c content) line r.
Proof.
  destruct r as [[lvl m] ln]. intros (Hlvl & Htext & before & after & -> & ->).
  split; [exact Hlvl|]. split; [exact Htext|].
  exists (String c before), after. split; [reflexivity|].
  cbn [newlines]. destruct (isNewline c); lia.
Qed.

Lemma execAll_occurrences p content :
  headingPattern p ->
  forall skip line, Forall (occursAt content line) (execAll p skip line content).
Proof.
  intros Hp. induction content as [|c rest IH]; intros skip line;
    [constructor|].
  assert (Hrest : forall k,
            Forall (occursAt (String c rest) line)
              (execAll p k (if isNewline c then line + 1 else line) rest)).
  { intros k. eapply Forall_impl; [|apply IH].
    intros r. apply occursAt_cons. }
  cbn [execAll]. destruct skip as [|k]; [|apply Hrest].
  destruct (matchHere p (String c rest)) as [[lvl m]|] eqn:Hm; [|apply Hrest].
  constructor; [|apply Hrest].
  destruct (matchHere_occurrence p _ _ _ Hp Hm) as (Htext & after & Heq).
  split; [|split; [exact Htext|]].
  - destruct Htext as (l & d & body & _ & _ & Hd & _).
    now apply digit16_range in Hd.
  - exists EmptyString, after. split; [exact Heq | cbn; lia].
Qed.

Lemma patterns_are_heading_patterns key p :
  In (key, p) HEADING_PATTERNS -> headingPattern p.
Proof.
  unfold headingPattern.
  intros [[= <- <-] | [[= <- <-] | [[= <- <-] | [[= <- <-] | []]]]];
    cbn; auto.
Qed.

Lemma extractHeadings_In content path h :
  In h (extractHeadings content path) ->
  exists key p,
    In (key, p) HEADING_PATTERNS
    /\ type h = (if Js.includes key "component" then "component" else "html")
    /\ filePath h = path
    /\ In (level h, matched h, lineNumber h) (execAll p 0 1 content).
Proof.
  intros Hin.
  apply (Permutation_in _ (sortByLine_perm _)) in Hin.
  apply in_flat_map in Hin. destruct Hin as ([key p] & Hentry & Hin).
  unfold eventsOf in Hin. apply in_map_iff in Hin.
  destruct Hin as ([[lvl m] ln] & <- & Hin).
  exists key, p. now repeat split.
Qed.

Lemma extracted_level_range content path h :
  In h (extractHeadings content path) -> 1 <= level h <= 6.
Proof.
  intros Hin.
  destruct (extractHeadings_In _ _ _ Hin) as (key & p & Hentry & _ & _ & Hm).
  pose proof (execAll_occurrences p content
                (patterns_are_heading_patterns _ _ Hentry) 0%nat 1) as Hall.
  rewrite Forall_forall in Hall. now destruct (Hall _ Hm).
Qed.

(** X7: the fields of every extracted heading are in range: the level
    is 1 to 6, the line number lies between 1 and the number of lines of
    the text, the file path is the one asked for, and the type is
    ["html"] or ["component"]. *)
Theorem heading_fields_in_range content path h
    (Hin : In h (extractHeadings content path)) :
  1 <= level h <= 6
  /\ 1 <= lineNumber h <= 1 + newlines content
  /\ filePath h = path
  /\ (type h = "html" \/ type h = "component").
Proof.
  destruct (extractHeadings_In _ _ _ Hin) as (key & p & Hentry & Hty & Hpath & Hm).
  pose proof (execAll_occurrences p content
                (patterns_are_heading_patterns _ _ Hentry) 0%nat 1) as Hall.
  rewrite Forall_forall in Hall.
  destruct (Hall _ Hm) as (Hlvl & _ & before & after & Hcontent & Hline).
  split; [exact Hlvl|]. split; [|split; [exact Hpath|]].
  - rewrite Hline, Hcontent, !newlines_app.
    pose proof (newlines_nonneg before).
    pose proof (newlines_nonneg (matched h)).
    pose proof (newlines_nonneg after). lia.
  - rewrite Hty. destruct (Js.includes key "component"); auto.
Qed.

Lemma heading_fields_in_range_witness :
  let h := mkEvent 3 "component" "<H3 id='a'>" 2 "a.tsx" in
  In h (extractHeadings ("<div>" ++ String "010" "<H3 id='a'>x</H3>") "a.tsx")
  /\ 1 <= level h <= 6
  /\ 1 <= lineNumber h
        <= 1 + newlines ("<div>" ++ String "010" "<H3 id='a'>x</H3>").
Proof.
  cbv zeta.
  assert (Hin : In (mkEvent 3 "component" "<H3 id='a'>" 2 "a.tsx")
                   (extractHeadings
                      ("<div>" ++ String "010" "<H3 id='a'>x</H3>") "a.tsx"))
    by (right; left; reflexivity).
  split; [exact Hin|].
  pose proof (heading_fields_in_range _ _ _ Hin) as H.
  exact (conj (proj1 H) (proj1 (proj2 H))).
Defined.

(** X8: every extracted heading is an occurrence of a tag in the text.
    The text splits into a part before, the matched text and a part
    after; the line number is one more than the number of line breaks
    before; the matched text is [<], [h] or [H], the digit of the level,
    any characters other than [>], and [>]. *)
Theorem heading_is_an_occurrence content path h
    (Hin : In h (extractHeadings content path)) :
  (exists before after,
     content = before ++ matched h ++ after
     /\ lineNumber h = 1 + newlines before)
  /\ exists l d body,
       matched h = String "<" (String l (String d (body ++ ">")))
       /\ (l = "h" \/ l = "H")%char
       /\ Js.digit16 d = Some (level h)
       /\ untilGt body = None.
Proof.
  destruct (extractHeadings_In _ _ _ Hin) as (key & p & Hentry & _ & _ & Hm).
  pose proof (execAll_occurrences p content
                (patterns_are_heading_patterns _ _ Hentry) 0%nat 1) as Hall.
  rewrite Forall_forall in Hall.
  destruct (Hall _ Hm) as (_ & Htext & Hocc).
  split; [exact Hocc|].
  destruct Htext as (l & d & body & Heq & Hl & Hd & Hbody).
  exists l, d, body. split; [exact Heq|]. split; [|now split].
  clear -Hl. destruct l as [[] [] [] [] [] [] [] []];
    vm_compute in Hl; try discriminate Hl; auto.
Qed.

Lemma heading_is_an_occurrence_witness :
  let h := mkEvent 1 "html" "<h1 />" 1 "a.tsx" in
  In h (extractHeadings "<h1 />" "a.tsx")
  /\ exists before after,
       "<h1 />" = before ++ matched h ++ after
       /\ lineNumber h = 1 + newlines before.
Proof.
  cbv zeta.
  assert (Hin : In (mkEvent 1 "html" "<h1 />" 1 "a.tsx")
                   (extractHeadings "<h1 />" "a.tsx"))
    by (left; reflexivity).
  split; [exact Hin|].
  exact (proj1 (heading_is_an_occurrence _ _ _ Hin)).
Defined.

(** *** Texts without a tag *)

Lemma untilGt_app_gt a b : untilGt (a ++ String ">" b) <> None.
Proof.
  induction a as [|c a IH]; cbn [append untilGt].
  - discriminate.
  - destruct (isGt c); [discriminate|].
    destruct (untilGt (a ++ String ">" b)); [discriminate | contradiction].
Qed.

Lemma matchHere_needs_gt p s :
  untilGt s = None -> matchHere p s = None.
Proof.
  intros Hno. destruct s as [|c [|l [|d tail]]]; try reflexivity;
    try (destruct c as [[] [] [] [] [] [] [] []]; reflexivity).
  cbn [untilGt] in Hno.
  destruct (isGt c); [discriminate|]. destruct (isGt l); [discriminate|].
  destruct (isGt d); [discriminate|].
  unfold matchHere. destruct (untilGt tail); [discriminate|].
  destruct c as [[] [] [] [] [] [] [] []]; try reflexivity.
  destruct (sameLetter l (letter p)); [|reflexivity].
  now destruct (Js.digit16 d).
Qed.

Lemma execAll_needs_gt p content : forall skip line,
  untilGt content = None -> execAll p skip line content = [].
Proof.
  induction content as [|c rest IH]; intros skip line Hno; [reflexivity|].
  assert (Hrest : untilGt rest = None).
  { cbn [untilGt] in Hno. destruct (isGt c); [discriminate|].
    now destruct (untilGt rest). }
  cbn [execAll]. destruct skip; [|now apply IH].
  rewrite (matchHere_needs_gt p _ Hno). now apply IH.
Qed.

Lemma extractHeadings_nil_iff content path :
  extractHeadings content path = [] <-> tags content = [].
Proof.
  rewrite <- !length_zero_iff_nil, Script.extractHeadings_length.
  pose proof (proj2 (Script.selfClosedTags_le_tags content)). lia.
Qed.

(** X9: a text in which no [>] occurs, the empty text in particular,
    has no heading: [extractHeadings] returns the empty list, and
    [processFile] records no violation and leaves every counter of the
    summary as it was. *)
Theorem text_without_gt_has_no_heading content path summary
    (Hno : untilGt content = None) :
  extractHeadings content path = []
  /\ processFile content path summary = ([], [], summary).
Proof.
  assert (Hnil : extractHeadings content path = []).
  { apply extractHeadings_nil_iff. now apply execAll_needs_gt. }
  split; [exact Hnil|]. unfold processFile. now rewrite Hnil.
Qed.

Lemma text_without_gt_has_no_heading_witness :
  untilGt "<h1 className='open'" = None
  /\ extractHeadings "<h1 className='open'" "a.tsx" = [].
Proof.
  split; [reflexivity|].
  exact (proj1 (text_without_gt_has_no_heading "<h1 className='open'" "a.tsx"
                  emptySummary eq_refl)).
Defined.

End Extraction.

(** ** What the script records for a file *)

Module FileRules.
Import Audit Outline.

(** What a violation of a heading list says, and about which headings. *)
Lemma fold_visitHeading_records path all hs : forall w,
  (forall h, In h hs -> In h all) ->
  (lastLevel w = 0 \/ exists h, In h all /\ level h = lastLevel w) ->
  Forall (recordOk path all) (violations w) ->
  Forall (recordOk path all)
         (violations (fold_left (visitHeading path) hs w)).
Proof.
  induction hs as [|h hs IH]; intros w Hsub Hlast Hok; [exact Hok|].
  cbn [fold_left]. apply IH.
  - intros h' Hin. apply Hsub. now right.
  - right. exists h. split; [apply Hsub; now left | reflexivity].
  - unfold visitHeading. cbn [violations].
    destruct (Z.gtb_spec (level h) (lastLevel w + 1)); [|exact Hok].
    apply Forall_app. split; [exact Hok|]. constructor; [|constructor].
    cbn [recordOk]. split; [reflexivity|]. split; [lia|].
    split; [reflexivity|]. split; [|exact Hlast].
    exists h. split; [apply Hsub; now left | now split].
Qed.

(** X10: every violation [validateFileHierarchy] returns is backed by
    the heading list.  A skip carries the file path, the level and the
    line of one of the headings, a previous level that is 0 or the level
    of one of the headings and lies more than one below, and the message
    built from the two levels; the [multiple_h1] violation carries the
    number of level-1 headings, which is more than one. *)
Theorem violations_are_backed headings path summary v
    (Hin : In v (fst (validateFileHierarchy headings path summary))) :
  recordOk path headings v
  \/ v = multiple_h1 (multipleMessage (Z.of_nat (countLevel1 headings)))
                     path (Z.of_nat (countLevel1 headings))
     /\ (1 < countLevel1 headings)%nat.
Proof.
  rewrite Script.validateFileHierarchy_violations in Hin.
  apply in_app_or in Hin. destruct Hin as [Hin | Hin].
  - left. revert v Hin. apply Forall_forall. unfold walkFile.
    apply fold_visitHeading_records; [auto | now left | constructor].
  - right. destruct (Z.gtb_spec (Z.of_nat (countLevel1 headings)) 1);
      [|destruct Hin].
    destruct Hin as [<- | []]. split; [reflexivity | lia].
Qed.

Lemma violations_are_backed_witness :
  let hs := eventsFrom 1 "a.tsx" [1; 3] in
  let v := hierarchy_skip
             "Heading hierarchy violation: H3 follows H1 (skipped H2)"
             "a.tsx" 2 3 1 in
  In v (fst (validateFileHierarchy hs "a.tsx" emptySummary))
  /\ (recordOk "a.tsx" hs v
      \/ v = multiple_h1 (multipleMessage (Z.of_nat (countLevel1 hs)))
                         "a.tsx" (Z.of_nat (countLevel1 hs))
         /\ (1 < countLevel1 hs)%nat).
Proof.
  cbv zeta.
  assert (Hin : In (hierarchy_skip
                      "Heading hierarchy violation: H3 follows H1 (skipped H2)"
                      "a.tsx" 2 3 1)
                   (fst (validateFileHierarchy (eventsFrom 1 "a.tsx" [1; 3])
                           "a.tsx" emptySummary)))
    by (left; reflexivity).
  split; [exact Hin|].
  exact (violations_are_backed _ _ _ _ Hin).
Defined.

Lemma validateFileHierarchy_summary hs path s :
  snd (validateFileHierarchy hs path s)
  = mkSummary (totalFiles s) (filesWithHeadings s) (totalHeadings s)
      (violationsFound s) (h1Count s + Z.of_nat (countLevel1 hs))
      (multipleH1Files s
         ++ (if (1 <? countLevel1 hs)%nat then [path] else []))%list.
Proof.
  unfold validateFileHierarchy.
  destruct (Script.walkFile_facts hs path) as (-> & _ & _).
  destruct (Z.gtb_spec (Z.of_nat (countLevel1 hs)) 1);
    destruct (Nat.ltb_spec 1 (countLevel1 hs)); try lia;
    cbn [snd]; now rewrite ?app_nil_r.
Qed.

(** The fields [processFile] returns, one by one. *)
Lemma processFile_fields content path summary :
  let hs := fst (fst (processFile content path summary)) in
  let vs := snd (fst (processFile content path summary)) in
  let s := snd (processFile content path summary) in
  hs = extractHeadings content path
  /\ vs = fst (validateFileHierarchy hs path summary)
  /\ totalFiles s = totalFiles summary
  /\ filesWithHeadings s
     = filesWithHeadings summary + (if (0 <? List.length hs)%nat then 1 else 0)
  /\ totalHeadings s = totalHeadings summary + Z.of_nat (List.length hs)
  /\ violationsFound s = violationsFound summary + Z.of_nat (List.length vs)
  /\ h1Count s = h1Count summary + Z.of_nat (countLevel1 hs)
  /\ multipleH1Files s
     = (multipleH1Files summary
        ++ (if (1 <? countLevel1 hs)%nat then [path] else []))%list.
Proof.
  cbv zeta. unfold processFile.
  set (hs := extractHeadings content path).
  destruct (Z.ltb_spec 0 (Z.of_nat (List.length hs))) as [Hsome | Hnone].
  - set (counted := mkSummary _ _ _ _ _ _).
    pose proof (validateFileHierarchy_summary hs path counted) as Hs.
    pose proof (Script.validateFileHierarchy_violations hs path counted) as Hv.
    destruct (validateFileHierarchy hs path counted) as [vs s1].
    cbn [fst snd] in *. subst s1 vs.
    rewrite Script.validateFileHierarchy_violations.
    replace (0 <? List.length hs)%nat with true
      by (symmetry; apply Nat.ltb_lt; lia).
    cbn [totalFiles filesWithHeadings totalHeadings violationsFound
           h1Count multipleH1Files counted].
    repeat split.
  - assert (Hnil : hs = []) by (destruct hs; [reflexivity | cbn in Hnone; lia]).
    rewrite Hnil. cbn. rewrite app_nil_r. repeat split; lia.
Qed.

(** X11: the bookkeeping of [processFile], in terms of the tags of the
    text.  The summary's heading total grows by twice the number of tags
    plus twice the number of self-closed tags, and its level-1 total by
    the same for the tags of level 1; the count of files with headings
    grows by one exactly when the text has a tag; the violation total
    grows by the number of violations returned; the count of scanned
    files is left alone. *)
Theorem processFile_accounting content path summary :
  let vs := snd (fst (processFile content path summary)) in
  let s := snd (processFile content path summary) in
  totalHeadings s - totalHeadings summary
    = 2 * Z.of_nat (List.length (tags content))
      + 2 * Z.of_nat (List.length (selfClosedTags content))
  /\ h1Count s - h1Count summary
     = 2 * Z.of_nat (ofLevel1 (tags content))
       + 2 * Z.of_nat (ofLevel1 (selfClosedTags content))
  /\ filesWithHeadings s - filesWithHeadings summary
     = (match tags content with [] => 0 | _ :: _ => 1 end)
  /\ violationsFound s - violationsFound summary = Z.of_nat (List.length vs)
  /\ totalFiles s = totalFiles summary.
Proof.
  cbv zeta.
  destruct (processFile_fields content path summary)
    as (Hhs & _ & Htotal & Hwith & Hheadings & Hfound & Hh1 & _).
  cbv zeta in *. rewrite Hhs in *.
  rewrite Hheadings, Hh1, Hwith, Hfound, Htotal.
  rewrite Script.extractHeadings_length, Script.extractHeadings_level1.
  pose proof (proj2 (Script.selfClosedTags_le_tags content)) as Hle.
  repeat split; try lia.
  destruct (tags content) as [|t ts] eqn:Htags; cbn [List.length] in *.
  - replace (List.length (selfClosedTags content)) with 0%nat by lia.
    cbn. lia.
  - destruct (Nat.ltb_spec 0
                (2 * S (List.length ts)
                 + 2 * List.length (selfClosedTags content))); lia.
Qed.

Lemma first_heading_reported h hs path :
  1 <= level h <= 6 ->
  (exists k, countLevel1 (h :: hs) = (2 * k)%nat) ->
  fst (validateFileHierarchy (h :: hs) path emptySummary) <> [].
Proof.
  intros Hlevel [k Heven] Hnil.
  rewrite Script.validateFileHierarchy_violations in Hnil.
  apply app_eq_nil in Hnil. destruct Hnil as [Hskips Hmult].
  destruct (Script.walkFile_facts (h :: hs) path) as (_ & Hlen & _).
  rewrite Hskips in Hlen. cbn [filter List.length map skips] in Hlen.
  destruct (Z.gtb_spec (level h) (0 + 1)) as [Hgt | Hle]; [lia|].
  assert (Hone : level h = 1) by lia.
  assert (Hpos : (1 <= countLevel1 (h :: hs))%nat).
  { unfold countLevel1. cbn [filter]. rewrite Hone. cbn. lia. }
  destruct (Z.gtb_spec (Z.of_nat (countLevel1 (h :: hs))) 1);
    [discriminate | lia].
Qed.

Lemma processFile_reports content path summary :
  tags content <> [] -> snd (fst (processFile content path summary)) <> [].
Proof.
  intros Htag.
  destruct (processFile_fields content path summary) as (Hhs & Hvs & _).
  cbv zeta in Hhs, Hvs. rewrite Hvs, Hhs.
  rewrite Script.validateFileHierarchy_violations.
  rewrite <- (Script.validateFileHierarchy_violations _ _ emptySummary).
  destruct (extractHeadings content path) as [|h hs] eqn:Hheadings.
  - apply Extraction.extractHeadings_nil_iff in Hheadings. contradiction.
  - apply first_heading_reported.
    + apply (Extraction.extracted_level_range content path).
      rewrite Hheadings. now left.
    + rewrite <- Hheadings, Script.extractHeadings_level1.
      exists (ofLevel1 (tags content) + ofLevel1 (selfClosedTags content))%nat.
      lia.
Qed.

(** X12: a file that contains a heading tag never passes.  Whenever the
    text of a file has at least one tag, [processFile] returns at least
    one violation for it and the violation total of the summary grows: a
    first heading deeper than level 1 is a skip, and a first heading of
    level 1 has been extracted at least twice and counts as several. *)
Theorem file_with_heading_is_reported content path summary
    (Htag : tags content <> []) :
  snd (fst (processFile content path summary)) <> []
  /\ violationsFound summary
     < violationsFound (snd (processFile content path summary)).
Proof.
  pose proof (processFile_reports content path summary Htag) as Hvs.
  split; [exact Hvs|].
  destruct (processFile_fields content path summary)
    as (_ & _ & _ & _ & _ & Hfound & _). cbv zeta in Hfound.
  rewrite Hfound.
  destruct (snd (fst (processFile content path summary)));
    [contradiction | cbn [List.length]; lia].
Qed.

Lemma file_with_heading_is_reported_witness :
  tags "<h1>Title</h1><h2>Part</h2>" <> []
  /\ snd (fst (processFile "<h1>Title</h1><h2>Part</h2>" "a.tsx"
                 emptySummary)) <> [].
Proof.
  assert (Htag : tags "<h1>Title</h1><h2>Part</h2>" <> []) by discriminate.
  split; [exact Htag|].
  exact (proj1 (file_with_heading_is_reported _ "a.tsx" emptySummary Htag)).
Defined.

End FileRules.

(** ** The scan of the source tree *)

Module Scan.
Import Cli Survey.

Lemma Entry_nested_ind (P : Entry -> Prop)
  (HFile : forall file read, P (FileEntry file read))
  (HDir : forall file entries, Forall P entries -> P (DirEntry file entries)) :
  forall e, P e.
Proof.
  fix IH 1. intros [file read | file entries].
  - apply HFile.
  - apply HDir. induction entries as [|e entries IHentries];
      constructor; [apply IH | exact IHentries].
Qed.

Lemma processAll_app a b r :
  processAll (a ++ b) r = processAll b (processAll a r).
Proof. unfold processAll. apply fold_left_app. Qed.

(** The scan performs the reads of [reads], one after the other. *)
Lemma scanEntry_reads : forall e dir r,
  scanEntry dir e r = processAll (reads dir e) r.
Proof.
  induction e as [file read | file entries IH] using Entry_nested_ind;
    intros dir r; cbn [scanEntry reads].
  - now destruct (isReactFile file).
  - destruct (entersDirectory file); [|now destruct (isReactFile file)].
    revert r. induction IH as [|e entries He _ IHentries]; intros r;
      [reflexivity|].
    cbn [fold_left flat_map]. now rewrite processAll_app, He, IHentries.
Qed.

Lemma scanDirectory_reads dir entries : forall r,
  scanDirectory dir entries r = processAll (flat_map (reads dir) entries) r.
Proof.
  unfold scanDirectory.
  induction entries as [|e entries IH]; intros r; [reflexivity|].
  cbn [fold_left flat_map]. now rewrite processAll_app, scanEntry_reads, IH.
Qed.

Lemma processFile_record content filePath s :
  fst (Audit.processFile content filePath s)
  = (Audit.extractHeadings content filePath,
     fileViolations (recordOf filePath content)).
Proof.
  unfold recordOf. cbn [fileViolations].
  destruct (FileRules.processFile_fields content filePath s)
    as (Hhs & Hvs & _).
  destruct (FileRules.processFile_fields content filePath
              Audit.emptySummary) as (Hhs' & Hvs' & _).
  cbv zeta in *. rewrite (surjective_pairing (fst _)). f_equal; [exact Hhs|].
  rewrite Hvs, Hvs', Hhs, Hhs'.
  now rewrite !Script.validateFileHierarchy_violations.
Qed.

Lemma process_content filePath content r :
  let r' := countFile (processFile filePath (Content content) r) in
  files (auditResults r')
    = (files (auditResults r) ++ [recordOf filePath content])%list
  /\ violations (auditResults r')
     = (violations (auditResults r)
        ++ fileViolations (recordOf filePath content))%list
  /\ stderr r' = stderr r.
Proof.
  cbv zeta. unfold processFile.
  pose proof (processFile_record content filePath
                (summary (auditResults r))) as Hrec.
  destruct (Audit.processFile content filePath (summary (auditResults r)))
    as [[hs vs] s]. cbn [fst] in Hrec. injection Hrec as -> ->.
  now split.
Qed.

Lemma process_throws filePath message r :
  let r' := countFile (processFile filePath (Throws message) r) in
  files (auditResults r') = files (auditResults r)
  /\ violations (auditResults r') = violations (auditResults r)
  /\ stderr r' = (stderr r ++ [errorLine filePath message])%list.
Proof. now split. Qed.

Lemma process_content_summary filePath content r :
  let s := summary (auditResults r) in
  let hs := Audit.extractHeadings content filePath in
  let vs := fileViolations (recordOf filePath content) in
  summary (auditResults
             (countFile (processFile filePath (Content content) r)))
  = Audit.mkSummary
      (Audit.totalFiles s + 1)
      (Audit.filesWithHeadings s
       + (if (0 <? List.length hs)%nat then 1 else 0))
      (Audit.totalHeadings s + Z.of_nat (List.length hs))
      (Audit.violationsFound s + Z.of_nat (List.length vs))
      (Audit.h1Count s + Z.of_nat (Outline.countLevel1 hs))
      (Audit.multipleH1Files s
       ++ (if (1 <? Outline.countLevel1 hs)%nat then [filePath] else []))%list.
Proof.
  cbv zeta. unfold processFile, countFile.
  pose proof (FileRules.processFile_fields content filePath
                (summary (auditResults r))) as Hacc.
  pose proof (processFile_record content filePath
                (summary (auditResults r))) as Hrec.
  cbv zeta in Hacc.
  destruct (Audit.processFile content filePath (summary (auditResults r)))
    as [[hs vs] s1]. cbn [fst snd] in Hacc, Hrec.
  injection Hrec as Hhs Hvs.
  destruct Hacc as (_ & _ & Atotal & Awith & Aheadings & Afound & Ah1 & Amult).
  subst hs vs. cbn [auditResults summary].
  destruct s1 as [t w h v c m]. cbn in Atotal, Awith, Aheadings, Afound,
    Ah1, Amult. cbn [Audit.totalFiles Audit.filesWithHeadings
    Audit.totalHeadings Audit.violationsFound Audit.h1Count
    Audit.multipleH1Files]. now subst.
Qed.

Lemma consistent_step filePath read r :
  consistent r -> consistent (countFile (processFile filePath read r)).
Proof.
  intros (Hvs & Hfound & Hheadings & Hwith & Hh1 & Hfiles).
  destruct read as [content | message].
  - destruct (process_content filePath content r) as (Hf & Hv & He).
    pose proof (process_content_summary filePath content r) as Hs.
    cbv zeta in Hf, Hv, He, Hs.
    remember (countFile (processFile filePath (Content content) r)) as r'.
    unfold consistent. cbv zeta. rewrite Hs, Hf, Hv, He.
    cbn [Audit.totalFiles Audit.filesWithHeadings Audit.totalHeadings
           Audit.violationsFound Audit.h1Count].
    rewrite !flat_map_app, filter_app, !length_app, Script.countLevel1_app.
    cbn [flat_map filter]. rewrite !app_nil_r.
    assert (Hhas : hasHeadings (recordOf filePath content)
                   = (0 <? List.length
                             (Audit.extractHeadings content filePath))%nat).
    { unfold hasHeadings, recordOf. cbn [headings].
      now destruct (Audit.extractHeadings content filePath). }
    rewrite Hhas.
    change (headings (recordOf filePath content))
      with (Audit.extractHeadings content filePath).
    destruct (0 <? List.length (Audit.extractHeadings content filePath))%nat;
      cbn [List.length]; rewrite Hvs in *; repeat split; lia.
  - unfold consistent. cbv zeta. unfold processFile, countFile.
    cbn [auditResults summary files violations stderr Audit.totalFiles
           Audit.filesWithHeadings Audit.totalHeadings
           Audit.violationsFound Audit.h1Count].
    rewrite length_app. cbn [List.length]. repeat split; try assumption; lia.
Qed.

Lemma consistent_processAll l : forall r,
  consistent r -> consistent (processAll l r).
Proof.
  induction l as [|[p read] l IH]; intros r Hr; [exact Hr|].
  apply IH. now apply consistent_step.
Qed.

Lemma consistent_initial : consistent initialRun.
Proof. repeat split. Qed.

Lemma main_reads C A components app :
  fst (main C A components app)
  = processAll (flat_map (reads C) (rootEntries components)
                ++ flat_map (reads A) (rootEntries app)) initialRun.
Proof.
  unfold main. cbn [fst]. rewrite processAll_app.
  destruct components, app; cbn [rootEntries flat_map];
    now rewrite ?scanDirectory_reads.
Qed.

(** *** What is scanned and what is not *)

Lemma reads_prune : forall e dir, reads dir (prune e) = reads dir e.
Proof.
  induction e as [file read | file entries IH] using Entry_nested_ind;
    intros dir; cbn [prune reads]; [reflexivity|].
  destruct (entersDirectory file); [|reflexivity].
  induction IH as [|e entries He _ IHentries]; [reflexivity|].
  cbn [map flat_map]. now rewrite He, IHentries.
Qed.

(** X14: what lies inside a directory that is not entered has no effect,
    at any depth.  A directory named [node_modules] or starting with a
    dot is not entered; the scan of a tree equals the scan of the tree
    with the contents of all such directories removed, and replacing
    their contents by anything else changes nothing. *)
Theorem skipped_directories_do_not_matter dir entries r :
  scanDirectory dir (map prune entries) r = scanDirectory dir entries r
  /\ (forall file children children',
        entersDirectory file = false ->
        scanEntry dir (DirEntry file children) r
        = scanEntry dir (DirEntry file children') r)
  /\ entersDirectory "node_modules" = false
  /\ (forall name, entersDirectory (String "." name) = false).
Proof.
  split; [|split; [|split]].
  - rewrite !scanDirectory_reads. f_equal.
    induction entries as [|e entries IH]; [reflexivity|].
    cbn [map flat_map]. now rewrite reads_prune, IH.
  - intros file children children' Hskip. cbn [scanEntry]. now rewrite Hskip.
  - reflexivity.
  - intros name. unfold entersDirectory, startsWith. now destruct name.
Qed.

Lemma Reaches_incl dir entries entries' p read :
  (forall e, In e entries -> In e entries') ->
  Reaches dir entries p read -> Reaches dir entries' p read.
Proof.
  intros Hincl H. destruct H as [dir entries file read Hin Hreact
                                | dir entries file children p read Hin Henter Hbelow].
  - apply reaches_file; auto.
  - eapply reaches_below; eauto.
Qed.

Lemma reads_reached : forall e dir p content,
  In (p, Content content) (reads dir e) ->
  Reaches dir [e] p (Content content).
Proof.
  induction e as [file read | file entries IH] using Entry_nested_ind;
    intros dir p content Hin; cbn [reads] in Hin.
  - destruct (isReactFile file) eqn:Hreact; [|destruct Hin].
    destruct Hin as [[= <- <-] | []].
    apply reaches_file; [now left | exact Hreact].
  - destruct (entersDirectory file) eqn:Henter.
    + apply in_flat_map in Hin. destruct Hin as (e & He & Hin).
      rewrite Forall_forall in IH.
      apply (reaches_below dir _ file entries); [now left | exact Henter|].
      apply (Reaches_incl _ [e]); [|now apply IH].
      intros e' [<- | []]. exact He.
    + destruct (isReactFile file); [|destruct Hin].
      destruct Hin as [[= _ Habs] | []].
Qed.

Lemma reached_reads dir entries p read :
  Reaches dir entries p read -> In (p, read) (flat_map (reads dir) entries).
Proof.
  induction 1 as [dir entries file read Hin Hreact
                 | dir entries file children p read Hin Henter _ IH];
    apply in_flat_map.
  - exists (FileEntry file read). split; [exact Hin|].
    cbn [reads]. rewrite Hreact. now left.
  - exists (DirEntry file children). split; [exact Hin|].
    cbn [reads]. now rewrite Henter.
Qed.

Lemma reads_Reaches dir entries p content :
  In (p, Content content) (flat_map (reads dir) entries)
  <-> Reaches dir entries p (Content content).
Proof.
  split; [|apply reached_reads].
  intros Hin. apply in_flat_map in Hin. destruct Hin as (e & He & Hin).
  apply (Reaches_incl _ [e]); [|now apply reads_reached].
  intros e' [<- | []]. exact He.
Qed.

Lemma files_processAll l : forall r,
  files (auditResults (processAll l r))
  = (files (auditResults r) ++ flat_map recordsOf l)%list.
Proof.
  induction l as [|[p read] l IH]; intros r.
  - cbn. now rewrite app_nil_r.
  - change (processAll ((p, read) :: l) r)
      with (processAll l (countFile (processFile p read r))).
    rewrite IH. cbn [flat_map]. rewrite app_assoc. f_equal.
    destruct read as [content | message]; unfold recordsOf; cbn [fst snd].
    + now destruct (process_content p content r) as (-> & _).
    + cbn. now rewrite app_nil_r.
Qed.

Lemma recordsOf_In l rec :
  In rec (flat_map recordsOf l)
  <-> exists content,
        In (path rec, Content content) l /\ rec = recordOf (path rec) content.
Proof.
  rewrite in_flat_map. split.
  - intros ([p read] & Hin & Hrec). unfold recordsOf in Hrec. cbn in Hrec.
    destruct read as [content | message]; [|destruct Hrec].
    destruct Hrec as [<- | []]. exists content. now split.
  - intros (content & Hin & Hrec). exists (path rec, Content content).
    split; [exact Hin|]. unfold recordsOf. cbn [fst snd]. now left.
Qed.

(** X15: the files recorded are exactly the files reached.  After a scan
    that starts from the empty results, a record is in
    [auditResults.files] exactly when a readable file with a [.tsx] or
    [.jsx] name lies at the record's path, directly in the directory or
    below directories that are entered, and the record holds that file's
    headings and violations. *)
Theorem recorded_files_are_the_reached_files dir entries rec :
  In rec (files (auditResults (scanDirectory dir entries initialRun)))
  <-> exists content,
        Reaches dir entries (path rec) (Content content)
        /\ rec = recordOf (path rec) content.
Proof.
  rewrite scanDirectory_reads, files_processAll. cbn [initialRun files
    auditResults app]. rewrite recordsOf_In.
  split; intros (content & Hin & Hrec); exists content; split; auto;
    now apply reads_Reaches.
Qed.

(** X16: a directory that is not entered but whose name ends in [.tsx]
    or [.jsx] is handed to [processFile] like a file.  The read fails,
    the failure is caught and written to the error stream, no record and
    no violation is added, and the directory is still counted as a
    scanned file. *)
Theorem skipped_directory_with_react_name dir file children r
    (Hskip : entersDirectory file = false)
    (Hname : isReactFile file = true) :
  let r' := scanEntry dir (DirEntry file children) r in
  files (auditResults r') = files (auditResults r)
  /\ violations (auditResults r') = violations (auditResults r)
  /\ stderr r' = (stderr r ++ [errorLine (join dir file) EISDIR])%list
  /\ Audit.totalFiles (summary (auditResults r'))
     = Audit.totalFiles (summary (auditResults r)) + 1
  /\ exitCode r' = exitCode r.
Proof.
  cbv zeta. cbn [scanEntry]. rewrite Hskip, Hname.
  destruct (process_throws (join dir file) EISDIR r) as (Hf & Hv & He).
  cbv zeta in Hf, Hv, He. now rewrite Hf, Hv, He.
Qed.

Lemma skipped_directory_with_react_name_witness :
  entersDirectory ".cache.tsx" = false
  /\ isReactFile ".cache.tsx" = true
  /\ stderr (scanEntry "/src" (DirEntry ".cache.tsx" []) initialRun)
     = [errorLine "/src/.cache.tsx" EISDIR].
Proof.
  split; [reflexivity|]. split; [reflexivity|].
  exact (proj1 (proj2 (proj2
           (skipped_directory_with_react_name "/src" ".cache.tsx" []
              initialRun eq_refl eq_refl)))).
Defined.

(** *** When the run succeeds *)

Lemma exitCode_zero_iff r :
  consistent r -> (exitCode r = 0 <-> violations (auditResults r) = []).
Proof.
  intros (_ & Hfound & _). unfold exitCode. rewrite Hfound.
  destruct (violations (auditResults r)) as [|v l]; cbn [List.length].
  - destruct (Z.gtb_spec (Z.of_nat 0) 0); [lia | tauto].
  - destruct (Z.gtb_spec (Z.of_nat (S (List.length l))) 0); [|lia].
    split; discriminate.
Qed.

Lemma flat_map_nil_iff {X Y} (f : X -> list Y) l :
  flat_map f l = [] <-> forall x, In x l -> f x = [].
Proof.
  induction l as [|x l IH]; cbn [flat_map].
  - split; [intros _ x [] | reflexivity].
  - split.
    + intros H. apply app_eq_nil in H. destruct H as [Hx Hl].
      intros y [<- | Hy]; [exact Hx | now apply IH].
    + intros H. rewrite (H x (or_introl eq_refl)).
      apply IH. intros y Hy. apply H. now right.
Qed.

Lemma fileViolations_nil_iff filePath content :
  fileViolations (recordOf filePath content) = []
  <-> Outline.tags content = [].
Proof.
  unfold recordOf. cbn [fileViolations]. split.
  - intros Hnil. destruct (Outline.tags content) as [|t ts] eqn:Htags;
      [reflexivity|].
    exfalso.
    apply (FileRules.processFile_reports content filePath Audit.emptySummary);
      [rewrite Htags; discriminate | exact Hnil].
  - intros Htags.
    pose proof (proj2 (Extraction.extractHeadings_nil_iff content filePath)
                  Htags) as Hnil.
    unfold Audit.processFile. now rewrite Hnil.
Qed.

(** *** When the file system refuses *)

Lemma Item_nested_ind (P : Fs.Item -> Prop)
  (HFile : forall file read, P (Fs.FileItem file read))
  (HDir : forall file items, Forall P items -> P (Fs.DirItem file items))
  (HLocked : forall file message, P (Fs.LockedDirItem file message))
  (HBroken : forall file message, P (Fs.BrokenItem file message)) :
  forall item, P item.
Proof.
  fix IH 1. intros [file read | file items | file message | file message].
  - apply HFile.
  - apply HDir. induction items as [|item items IHitems];
      constructor; [apply IH | exact IHitems].
  - apply HLocked.
  - apply HBroken.
Qed.

(** Once an exception has left the scan, no further item is looked at. *)
Lemma scan_after_uncaught (f : Fs.Item -> Run -> Fs.Ended) items message r :
  fold_left (fun e item => Fs.andThen e (f item)) items
            (Fs.Uncaught message r)
  = Fs.Uncaught message r.
Proof. induction items as [|item items IH]; [reflexivity | exact IH]. Qed.

(** While nothing throws, the scan is the one of the entries. *)
Lemma scanItem_entries : forall item dir r,
  Fs.fails item = false ->
  Fs.scanItem dir item r
  = Fs.Finished (scanDirectory dir (Fs.entriesOf item) r).
Proof.
  induction item as [file read | file items IH | file message | file message]
    using Item_nested_ind; intros dir r Hfails;
    cbn [Fs.scanItem Fs.entriesOf Fs.fails] in *; unfold scanDirectory;
    cbn [fold_left scanEntry].
  - now destruct (isReactFile file).
  - destruct (entersDirectory file); [|now destruct (isReactFile file)].
    cbn [andb] in Hfails. revert r Hfails.
    induction IH as [|item items Hitem _ IHitems]; intros r Hfails;
      [reflexivity|].
    cbn [existsb] in Hfails. apply orb_false_iff in Hfails as [Hhead Hrest].
    cbn [fold_left flat_map Fs.andThen].
    rewrite (Hitem _ r Hhead), fold_left_app, (IHitems _ Hrest).
    reflexivity.
  - rewrite Hfails. now destruct (isReactFile file).
  - discriminate.
Qed.

Lemma scanItems_entries dir items : forall r,
  existsb Fs.fails items = false ->
  Fs.scanItems dir items r
  = Fs.Finished (scanDirectory dir (flat_map Fs.entriesOf items) r).
Proof.
  unfold Fs.scanItems, scanDirectory.
  induction items as [|item items IH]; intros r Hfails; [reflexivity|].
  cbn [existsb] in Hfails. apply orb_false_iff in Hfails as [Hhead Hrest].
  cbn [fold_left flat_map Fs.andThen].
  rewrite (scanItem_entries item dir r Hhead), fold_left_app.
  now rewrite (IH _ Hrest).
Qed.

(** A scan that meets a refusal ends in the exception. *)
Lemma scanItem_uncaught : forall item dir r,
  Fs.fails item = true ->
  exists message r', Fs.scanItem dir item r = Fs.Uncaught message r'.
Proof.
  induction item as [file read | file items IH | file message | file message]
    using Item_nested_ind; intros dir r Hfails;
    cbn [Fs.scanItem Fs.fails] in *.
  - discriminate.
  - destruct (entersDirectory file); [|discriminate].
    cbn [andb] in Hfails. revert r Hfails.
    induction IH as [|item items Hitem _ IHitems]; intros r Hfails;
      [discriminate|].
    cbn [existsb] in Hfails. cbn [fold_left Fs.andThen].
    destruct (Fs.fails item) eqn:Hhead.
    + destruct (Hitem (join dir file) r eq_refl) as (message & r' & ->).
      rewrite scan_after_uncaught. now exists message, r'.
    + rewrite (scanItem_entries item _ r Hhead). now apply IHitems.
  - rewrite Hfails. now exists message, r.
  - now exists message, r.
Qed.

Lemma scanItems_uncaught dir items : forall r,
  existsb Fs.fails items = true ->
  exists message r', Fs.scanItems dir items r = Fs.Uncaught message r'.
Proof.
  unfold Fs.scanItems.
  induction items as [|item items IH]; intros r Hfails; [discriminate|].
  cbn [existsb] in Hfails. cbn [fold_left Fs.andThen].
  destruct (Fs.fails item) eqn:Hhead.
  - destruct (scanItem_uncaught item dir r Hhead) as (message & r' & ->).
    rewrite scan_after_uncaught. now exists message, r'.
  - rewrite (scanItem_entries item dir r Hhead). now apply IH.
Qed.

Lemma scanRoot_entries dir root r :
  Fs.rootFails root = false ->
  Fs.scanRoot dir root r
  = Fs.Finished
      (scanDirectory dir (flat_map Fs.entriesOf (Fs.rootItems root)) r).
Proof.
  destruct root as [|items|message]; cbn [Fs.rootFails Fs.scanRoot
    Fs.rootItems]; intros Hfails; [reflexivity | | discriminate].
  now apply scanItems_entries.
Qed.

Lemma scanRoot_uncaught dir root r :
  Fs.rootFails root = true ->
  exists message r', Fs.scanRoot dir root r = Fs.Uncaught message r'.
Proof.
  destruct root as [|items|message]; cbn [Fs.rootFails Fs.scanRoot];
    intros Hfails; [discriminate | | now exists message, r].
  now apply scanItems_uncaught.
Qed.

(** Whatever holds at the start and is kept by each processed file
    holds of the state a scan ends with, however it ends. *)
Lemma scanItem_keeps (P : Run -> Prop)
    (Hstep : forall filePath read r,
        P r -> P (countFile (processFile filePath read r))) :
  forall item dir r, P r -> P (Fs.runOf (Fs.scanItem dir item r)).
Proof.
  induction item as [file read | file items IH | file message | file message]
    using Item_nested_ind; intros dir r Hr; cbn [Fs.scanItem].
  - destruct (isReactFile file); cbn [Fs.runOf]; auto.
  - destruct (entersDirectory file);
      [|destruct (isReactFile file); cbn [Fs.runOf]; auto].
    assert (Hgen : forall e,
      P (Fs.runOf e) ->
      P (Fs.runOf
           (fold_left
              (fun e item => Fs.andThen e (Fs.scanItem (join dir file) item))
              items e))).
    { induction IH as [|item items Hitem _ IHitems]; intros e He;
        [exact He|].
      cbn [fold_left]. apply IHitems.
      destruct e as [r0 | message r0]; cbn [Fs.andThen Fs.runOf] in *;
        [now apply Hitem | exact He]. }
    now apply Hgen.
  - destruct (entersDirectory file); [exact Hr|].
    destruct (isReactFile file); cbn [Fs.runOf]; auto.
  - exact Hr.
Qed.

Lemma scanRoot_keeps (P : Run -> Prop)
    (Hstep : forall filePath read r,
        P r -> P (countFile (processFile filePath read r))) dir root r :
  P r -> P (Fs.runOf (Fs.scanRoot dir root r)).
Proof.
  intros Hr. destruct root as [|items|message]; cbn [Fs.scanRoot Fs.runOf];
    try exact Hr.
  unfold Fs.scanItems.
  assert (Hgen : forall e,
    P (Fs.runOf e) ->
    P (Fs.runOf
         (fold_left (fun e item => Fs.andThen e (Fs.scanItem dir item))
                    items e))).
  { induction items as [|item items IH]; intros e He; [exact He|].
    cbn [fold_left]. apply IH.
    destruct e as [r0 | message r0]; cbn [Fs.andThen Fs.runOf] in *;
      [now apply scanItem_keeps | exact He]. }
  now apply Hgen.
Qed.

Lemma main_keeps (P : Run -> Prop)
    (Hstep : forall filePath read r,
        P r -> P (countFile (processFile filePath read r))) C A components app :
  P initialRun -> P (Fs.runOf (fst (Fs.main C A components app))).
Proof.
  intros Hinit. unfold Fs.main. cbn [fst].
  pose proof (scanRoot_keeps P Hstep C components initialRun Hinit) as H1.
  destruct (Fs.scanRoot C components initialRun) as [r1 | message r1];
    cbn [Fs.andThen Fs.runOf] in *; [|exact H1].
  now apply scanRoot_keeps.
Qed.

(** The files reached are those reached among the entries. *)
Lemma Reaches_entries dir items p read :
  Fs.Reaches dir items p read
  <-> Reaches dir (flat_map Fs.entriesOf items) p read.
Proof.
  split.
  - induction 1 as [dir items file read Hin Hreact
                   | dir items file children p read Hin Henter _ IH].
    + apply reaches_file; [|exact Hreact].
      apply in_flat_map. exists (Fs.FileItem file read).
      split; [exact Hin | now left].
    + apply (reaches_below _ _ file (flat_map Fs.entriesOf children));
        [|exact Henter | exact IH].
      apply in_flat_map. exists (Fs.DirItem file children).
      split; [exact Hin | now left].
  - intros H. remember (flat_map Fs.entriesOf items) as entries eqn:He.
    revert items He.
    induction H as [dir entries file read Hin Hreact
                   | dir entries file children p read Hin Henter Hbelow IH];
      intros items ->; apply in_flat_map in Hin;
      destruct Hin as ([f rd | f its | f m | f m] & Hitem & Hin);
      cbn [Fs.entriesOf In] in Hin; try contradiction;
      destruct Hin as [Heq | []]; try discriminate Heq.
    + injection Heq as -> ->. now apply Fs.reaches_file.
    + injection Heq as -> <-.
      apply (Fs.reaches_below _ _ file its); [exact Hitem | exact Henter|].
      now apply IH.
    + injection Heq as -> <-. inversion Hbelow as [? ? ? ? Hnone | ? ? ? ? ? ? Hnone];
        destruct Hnone.
Qed.

(** X13: however the run ends, the counters of the summary agree with
    what was collected by then: the violation total is the number of
    collected violations, which are those of the file records in order;
    the heading totals count the headings of the records; the number of
    scanned files is the number of records plus the number of error
    lines.  When the scan returns, the process ends with status 0
    exactly when no violation was collected, and with 1 otherwise; when
    an exception of [fs.statSync] or [fs.readdirSync] leaves the scan,
    it ends with status 1 whatever was collected. *)
Theorem run_counts_what_was_collected C A components app :
  consistent (Fs.runOf (fst (Fs.main C A components app)))
  /\ (forall r,
        fst (Fs.main C A components app) = Fs.Finished r ->
        (snd (Fs.main C A components app) = 0
         <-> violations (auditResults r) = [])
        /\ (snd (Fs.main C A components app) = 1
            <-> violations (auditResults r) <> []))
  /\ (forall message r,
        fst (Fs.main C A components app) = Fs.Uncaught message r ->
        snd (Fs.main C A components app) = 1)
  /\ (Fs.rootFails components || Fs.rootFails app = true
      <-> exists message r,
            fst (Fs.main C A components app) = Fs.Uncaught message r).
Proof.
  pose proof (main_keeps consistent consistent_step C A components app
                consistent_initial) as Hcons.
  split; [exact Hcons|]. split; [|split].
  - intros r Hend. rewrite Hend in Hcons. cbn [Fs.runOf] in Hcons.
    assert (Hexit : snd (Fs.main C A components app) = exitCode r).
    { unfold Fs.main in *. cbn [fst snd] in *. now rewrite Hend. }
    rewrite Hexit. pose proof (exitCode_zero_iff r Hcons) as Hzero.
    split; [exact Hzero|].
    unfold exitCode in *.
    destruct (Audit.violationsFound (summary (auditResults r)) >? 0).
    + split; [intros _ Hnil; apply Hzero in Hnil; discriminate
             | reflexivity].
    + split; [discriminate | intros Hne; destruct Hne; now apply Hzero].
  - intros message r Hend. unfold Fs.main in *. cbn [fst snd] in *.
    now rewrite Hend.
  - unfold Fs.main. cbn [fst].
    destruct (Fs.rootFails components) eqn:Hc.
    + destruct (scanRoot_uncaught C components initialRun Hc)
        as (message & r & ->).
      cbn [orb Fs.andThen]. split; [|reflexivity].
      intros _. now exists message, r.
    + rewrite (scanRoot_entries C components initialRun Hc).
      cbn [orb Fs.andThen].
      destruct (Fs.rootFails app) eqn:Ha.
      * destruct (scanRoot_uncaught A app
                    (scanDirectory C
                       (flat_map Fs.entriesOf (Fs.rootItems components))
                       initialRun) Ha) as (message & r & ->).
        split; [|reflexivity]. intros _. now exists message, r.
      * rewrite (scanRoot_entries A app _ Ha).
        split; [discriminate | intros (message & r & Habs); discriminate].
Qed.

(** X17: the process ends with status 0 exactly when the scan meets no
    refusal of [fs.statSync] or [fs.readdirSync] and no scanned file
    contains a heading tag: every readable [.tsx] or [.jsx] file reached
    from the components root or from the app root has a text without
    any [<h1>] to [<h6>] or [<H1>] to [<H6>] tag.  One such tag
    anywhere, or one refusal on the way, makes it end with 1. *)
Theorem status_zero_iff_no_refusal_no_tag C A components app :
  snd (Fs.main C A components app) = 0
  <-> Fs.rootFails components = false
      /\ Fs.rootFails app = false
      /\ forall p content,
           Fs.Reaches C (Fs.rootItems components) p (Content content)
           \/ Fs.Reaches A (Fs.rootItems app) p (Content content) ->
           Outline.tags content = [].
Proof.
  unfold Fs.main. cbn [snd].
  destruct (Fs.rootFails components) eqn:Hc.
  { destruct (scanRoot_uncaught C components initialRun Hc)
      as (message & r & ->).
    cbn [Fs.andThen]. split; [discriminate | intros (Habs & _); discriminate]. }
  rewrite (scanRoot_entries C components initialRun Hc). cbn [Fs.andThen].
  destruct (Fs.rootFails app) eqn:Ha.
  { destruct (scanRoot_uncaught A app
                (scanDirectory C
                   (flat_map Fs.entriesOf (Fs.rootItems components))
                   initialRun) Ha) as (message & r & ->).
    split; [discriminate | intros (_ & Habs & _); discriminate]. }
  rewrite (scanRoot_entries A app _ Ha), !scanDirectory_reads.
  rewrite <- processAll_app.
  set (l := (flat_map (reads C)
               (flat_map Fs.entriesOf (Fs.rootItems components))
             ++ flat_map (reads A)
                  (flat_map Fs.entriesOf (Fs.rootItems app)))%list).
  pose proof (consistent_processAll l _ consistent_initial) as Hcons.
  rewrite (exitCode_zero_iff _ Hcons).
  destruct Hcons as (-> & _).
  rewrite files_processAll. cbn [initialRun auditResults files List.app].
  rewrite flat_map_nil_iff. split.
  - intros Hall. split; [reflexivity|]. split; [reflexivity|].
    intros p content Hreach.
    apply (fileViolations_nil_iff p content), Hall.
    apply recordsOf_In. exists content. split; [|reflexivity].
    cbn [path recordOf]. subst l. apply in_or_app.
    destruct Hreach as [Hreach | Hreach]; [left | right];
      now apply reads_Reaches, Reaches_entries.
  - intros (_ & _ & Hall) rec Hrec. apply recordsOf_In in Hrec.
    destruct Hrec as (content & Hin & ->).
    apply fileViolations_nil_iff, (Hall (path rec)).
    subst l. apply in_app_or in Hin.
    destruct Hin as [Hin | Hin]; [left | right];
      now apply Reaches_entries, reads_Reaches.
Qed.

(** A components root that holds a symbolic link without target next to
    a file without headings, and an app root with a clean page. *)
Example run_with_dangling_link :
  Fs.main "/src/components" "/src/app"
    (Fs.Listing [Fs.FileItem "Card.tsx" (Content "<div>text</div>");
                 Fs.BrokenItem "old.tsx" "ENOENT: no such file or directory";
                 Fs.FileItem "Hero.tsx" (Content "<h2>Title</h2>")])
    (Fs.Listing [Fs.FileItem "page.tsx" (Content "<main></main>")])
  = (Fs.Uncaught "ENOENT: no such file or directory"
       (countFile (processFile "/src/components/Card.tsx"
                     (Content "<div>text</div>") initialRun)),
     1)
  /\ snd (Fs.main "/src/components" "/src/app"
            (Fs.Listing [Fs.DirItem "node_modules"
                           [Fs.BrokenItem "link" "ENOENT"];
                         Fs.LockedDirItem ".git" "EACCES";
                         Fs.FileItem "Card.tsx" (Content "<div>text</div>")])
            Fs.Absent) = 0
  /\ snd (Fs.main "/src/components" "/src/app"
            Fs.Absent (Fs.Unlistable "ENOTDIR: not a directory")) = 1.
Proof. repeat split. Qed.

End Scan.
